(** * Schnorr key pairs over secp256k1: the Go binding [schnorr_keypair.go]

    A shallow embedding of the Go file and the properties its specification
    states about it.  The file is a thin layer over two collaborators that it
    reaches through calls: the curve engine (libsecp256k1, through cgo) and the
    randomness source ([crypto/rand]).  Both are kept outside the Go code here
    as well: the engine is a record of four primitives the Go functions are
    parameterised by, the randomness source is part of the world the Go
    functions run in. *)

From Stdlib Require Import String Ascii DecimalString.
From Stdlib Require Import ZArith List Bool Lia.
From Stdlib Require Init.Byte Strings.Byte.
From coqutil Require Import Byte Word.LittleEndianList.
From coqutil Require Datatypes.List.
From Bignums Require Import BigZ.
Import ListNotations.

Local Open Scope string_scope.
Local Open Scope list_scope.
Local Open Scope Z_scope.

(** ** Byte buffers *)

Abbreviation bytes := (list byte).

(** A zero-initialised Go array of [n] bytes. *)
Definition zeros (n : nat) : bytes := repeat Byte.x00 n.

(** Go's [copy(dst, src)], and equally what a fixed-size Go array holds after
    foreign code wrote [src] through a pointer to its first element: the first
    [min (len dst) (len src)] cells are overwritten, the array keeps its
    length. *)
Definition copy (dst src : bytes) : bytes := List.upds dst 0 src.

(** The slice expression [a[lo:hi]]. *)
Definition slice (a : bytes) (lo hi : nat) : bytes := firstn (hi - lo) (skipn lo a).

(** Big-endian reading and writing of a scalar, the byte order of a
    [SerializedPrivateKey] and of a tweak. *)
Definition be_decode (bs : bytes) : Z := le_combine (rev bs).
Definition be_encode (n : nat) (z : Z) : bytes := rev (le_split n z).

(** ** Go values *)

(** [%d] of [fmt] and of [errors.Errorf]. *)
Definition fmt_d (z : Z) : string := NilZero.string_of_int (Z.to_int z).

(** [hex.EncodeToString]: two lowercase hexadecimal digits for each byte. *)
Definition hex_digit (d : Z) : ascii :=
  nth (Z.to_nat d) (list_ascii_of_string "0123456789abcdef") "0"%char.

Definition hex_EncodeToString (src : bytes) : string :=
  fold_right (fun b rest =>
                String (hex_digit (Z.shiftr (byte.unsigned b) 4))
                       (String (hex_digit (Z.land (byte.unsigned b) 15)) rest))
             EmptyString src.

(** Values of Go's [error] interface as this file builds them with
    [github.com/pkg/errors]: [errors.New] and [errors.Errorf] make an error out
    of a message, [errors.WithStack] wraps an error and keeps it as its
    cause. *)
Inductive error : Type :=
| errors_New (msg : string)
| errors_WithStack (cause : error).

Definition errors_Errorf2 (pre : string) (a : Z) (mid : string) (b : Z) : error :=
  errors_New (pre ++ fmt_d a ++ mid ++ fmt_d b)%string.

Fixpoint errors_Cause (e : error) : error :=
  match e with
  | errors_New _ => e
  | errors_WithStack c => errors_Cause c
  end.

(** [errZeroedKeyPair], the package-level sentinel. *)
Definition errZeroedKeyPair : error :=
  errors_New "the key pair is zeroed, which isn't a valid SchnorrKeyPair".

(** Modelled from the spec: the constant [SerializedPrivateKeySize] is declared
    outside [schnorr_keypair.go]; a SerializedPrivateKey is "a fixed 32-byte
    sequence". *)
Definition SerializedPrivateKeySize : Z := 32.

(** Modelled from the spec: the types [Hash], [SchnorrPublicKey] and
    [SchnorrSignature] are declared outside [schnorr_keypair.go].  The message
    hash is 32 bytes, the x-only public key is 32 bytes, the signature is 64
    bytes; the key pair record of the engine is 96 bytes. *)
Definition PublicKeySize : nat := 32.
Definition SignatureSize : nat := 64.
Definition KeyPairSize : nat := 96.

(** Modelled from the spec: the "curve group order" of secp256k1, which bounds
    the secrets and the tweaks; the curve engine owns the constant. *)
Definition groupOrder : Z :=
  0xFFFFFFFFFFFFFFFFFFFFFFFFFFFFFFFEBAAEDCE6AF48A03BBFD25E8CD0364141.

(** [SchnorrKeyPair]: the struct holds the engine's [secp256k1_keypair], whose
    only field is the array [data]. *)
Record SchnorrKeyPair : Type := { keypair_data : bytes }.

(** The Go type [SchnorrPublicKey]; the name is left to the method. *)
Record PublicKey : Type := { pubkey : bytes }.

Record SchnorrSignature : Type := { signature : bytes }.

(** ** The collaborators *)

(** The four primitives of the curve engine that the Go file calls.  Each takes
    the buffers the Go code passes in and gives back the C return value with
    what it wrote through its out-pointers; an engine call has no other
    effect, and the process-wide context it receives never changes.
    [secp256k1_keypair_xonly_pub] may leave the parity untouched. *)
Record CurveEngine : Type := {
  secp256k1_keypair_create : bytes -> Z * bytes;
  secp256k1_keypair_xonly_tweak_add : bytes -> bytes -> Z * bytes;
  secp256k1_keypair_xonly_pub : bytes -> Z * bytes * option Z;
  secp256k1_schnorrsig_sign : bytes -> bytes -> bytes -> Z * bytes
}.

(** What the randomness source does on one [Read]: the bytes it writes into the
    buffer, and the error it reports. *)
Record RandReply : Type := { rr_data : bytes; rr_err : option error }.

(** The calls made to the engine, with their inputs. *)
Inductive EngineCall : Type :=
| call_keypair_create (seckey : bytes)
| call_keypair_xonly_tweak_add (keypair tweak : bytes)
| call_keypair_xonly_pub (keypair : bytes)
| call_schnorrsig_sign (msg keypair aux : bytes).

(** The world outside the Go values: the replies the randomness source will
    give, how many it has given, and the engine calls made so far (latest
    first). *)
Record World : Type := {
  rand_source : nat -> RandReply;
  rand_reads : nat;
  engine_calls : list EngineCall
}.

(** ** Go computations *)

(** A Go call returns, panics, or is still running when the fuel of the model
    is used up (only the [for] loop of [GeneratePrivateKey] can be). *)
Inductive Result (A : Type) : Type :=
| Returns (a : A) (w : World)
| Panics (msg : string) (w : World)
| OutOfFuel.
Arguments Returns {A} a w.
Arguments Panics {A} msg w.
Arguments OutOfFuel {A}.

Definition Go (A : Type) : Type := World -> Result A.

Definition ret {A} (a : A) : Go A := fun w => Returns a w.

Definition panic {A} (msg : string) : Go A := fun w => Panics msg w.

Definition bind {A B} (m : Go A) (k : A -> Go B) : Go B :=
  fun w => match m w with
           | Returns a w' => k a w'
           | Panics msg w' => Panics msg w'
           | OutOfFuel => OutOfFuel
           end.

Notation "x <- m ;; k" := (bind m (fun x => k))
  (at level 61, m at next level, right associativity).
Notation "' p <- m ;; k" := (bind m (fun x => let 'p := x in k))
  (at level 61, p pattern, m at next level, right associativity).

(** The value a finished call returned. *)
Definition returned {A} (r : Result A) : option A :=
  match r with Returns a _ => Some a | _ => None end.

(** [rand.Read(b)]: the buffer afterwards, [n] and [err]. *)
Definition rand_Read (b : bytes) : Go (bytes * Z * option error) :=
  fun w =>
    let r := rand_source w (rand_reads w) in
    let n := Nat.min (length (rr_data r)) (length b) in
    Returns (copy b (rr_data r), Z.of_nat n, rr_err r)
            {| rand_source := rand_source w;
               rand_reads := S (rand_reads w);
               engine_calls := engine_calls w |}.

Definition log_call (c : EngineCall) (w : World) : World :=
  {| rand_source := rand_source w;
     rand_reads := rand_reads w;
     engine_calls := c :: engine_calls w |}.

Section GoCode.

Variable C : CurveEngine.

(** The cgo calls: the engine's answer, with the call recorded. *)
Definition C_secp256k1_keypair_create (seckey : bytes) : Go (Z * bytes) :=
  fun w => Returns (secp256k1_keypair_create C seckey)
                   (log_call (call_keypair_create seckey) w).

Definition C_secp256k1_keypair_xonly_tweak_add (kp tweak : bytes) : Go (Z * bytes) :=
  fun w => Returns (secp256k1_keypair_xonly_tweak_add C kp tweak)
                   (log_call (call_keypair_xonly_tweak_add kp tweak) w).

Definition C_secp256k1_keypair_xonly_pub (kp : bytes) : Go (Z * bytes * option Z) :=
  fun w => Returns (secp256k1_keypair_xonly_pub C kp)
                   (log_call (call_keypair_xonly_pub kp) w).

Definition C_secp256k1_schnorrsig_sign (msg kp aux : bytes) : Go (Z * bytes) :=
  fun w => Returns (secp256k1_schnorrsig_sign C msg kp aux)
                   (log_call (call_schnorrsig_sign msg kp aux) w).

(** Modelled from the spec: the package-level helper [isZeroed(slice)] is
    declared outside [schnorr_keypair.go]; the spec reads it as "is
    all-zero". *)
Definition isZeroed_slice (s : bytes) : bool :=
  forallb (fun b => Byte.eqb b Byte.x00) s.

(** The method [isZeroed] of a key pair. *)
Definition isZeroed (key : SchnorrKeyPair) : bool :=
  isZeroed_slice (slice (keypair_data key) 0 32)
  || isZeroed_slice (slice (keypair_data key) 32 64)
  || isZeroed_slice (skipn 64 (keypair_data key)).

(** [parityBitToBool(parity C.int) bool] *)
Definition parityBitToBool (parity : Z) : Go bool :=
  match parity with
  | 0 => ret false
  | 1 => ret true
  | _ => panic ("should never happen, parity should always be 1 or 0, instead got: "
                ++ fmt_d parity)%string
  end.

(** [DeserializePrivateKey(data)]; [data] is the array the pointer refers
    to, and the result is the pair of the key pair pointer ([None] is [nil])
    and the error ([None] is [nil]). *)
Definition DeserializePrivateKey (data : bytes)
  : Go (option SchnorrKeyPair * option error) :=
  let key := {| keypair_data := zeros KeyPairSize |} in
  '(r, out) <- C_secp256k1_keypair_create data ;;
  let key := {| keypair_data := copy (keypair_data key) out |} in
  if negb (r =? 1)
  then ret (None, Some (errors_New
              "invalid SchnorrKeyPair (zero or bigger than the group order)"))
  else ret (Some key, None).

(** [DeserializePrivateKeyFromSlice(data []byte)] *)
Definition DeserializePrivateKeyFromSlice (data : bytes)
  : Go (option SchnorrKeyPair * option error) :=
  if negb (Z.of_nat (length data) =? SerializedPrivateKeySize)
  then ret (None, Some (errors_Errorf2 "invalid private key length got "
                          (Z.of_nat (length data)) ", expected "
                          SerializedPrivateKeySize))
  else
    let serializedKey := zeros (Z.to_nat SerializedPrivateKeySize) in
    let serializedKey := copy serializedKey data in
    DeserializePrivateKey serializedKey.

(** The [for] loop of [GeneratePrivateKey]; [rawKey] is the buffer the loop
    keeps reading into, [fuel] bounds the number of rounds of the model. *)
Fixpoint GeneratePrivateKey_loop (fuel : nat) (rawKey : bytes)
  : Go (option SchnorrKeyPair * option error) :=
  match fuel with
  | O => fun _ => OutOfFuel
  | S fuel' =>
      '(rawKey, n, err) <- rand_Read rawKey ;;
      if (match err with Some _ => true | None => false end)
         || negb (n =? Z.of_nat (length rawKey))
      then ret (None, err)
      else
        '(key, err) <- DeserializePrivateKey rawKey ;;
        match err with
        | None => ret (key, None)
        | Some _ => GeneratePrivateKey_loop fuel' rawKey
        end
  end.

(** [GeneratePrivateKey()] *)
Definition GeneratePrivateKey (fuel : nat)
  : Go (option SchnorrKeyPair * option error) :=
  GeneratePrivateKey_loop fuel (zeros (Z.to_nat SerializedPrivateKeySize)).

(** [key.SerializePrivateKey()] *)
Definition SerializePrivateKey (key : SchnorrKeyPair) : bytes :=
  fold_left (fun r i => List.upd r i (nth i (keypair_data key) Byte.x00))
            (seq 0 32)
            (zeros (Z.to_nat SerializedPrivateKeySize)).

(** [func (key SerializedPrivateKey) String() string] *)
Definition SerializedPrivateKey_String (key : bytes) : string :=
  hex_EncodeToString key.

(** [func (key SchnorrKeyPair) String() string] *)
Definition SchnorrKeyPair_String (key : SchnorrKeyPair) : string :=
  SerializedPrivateKey_String (SerializePrivateKey key).

(** [key.Add(tweak [32]byte) error]; the key pair is changed in place, so the
    call gives back the record the receiver holds afterwards together with
    the error. *)
Definition Add (key : SchnorrKeyPair) (tweak : bytes)
  : Go (SchnorrKeyPair * option error) :=
  if isZeroed key
  then ret (key, Some (errors_WithStack errZeroedKeyPair))
  else
    '(r, out) <- C_secp256k1_keypair_xonly_tweak_add (keypair_data key) tweak ;;
    let key := {| keypair_data := copy (keypair_data key) out |} in
    if negb (r =? 1)
    then ret (key, Some (errors_New
                "failed Adding to private key. Tweak is bigger than the order or the complement of the private key"))
    else ret (key, None).

(** [key.schnorrPublicKeyInternal()], with results [pubkey], [wasOdd] and [err]. *)
Definition schnorrPublicKeyInternal (key : SchnorrKeyPair)
  : Go (option PublicKey * bool * option error) :=
  if isZeroed key
  then ret (None, false, Some (errors_WithStack errZeroedKeyPair))
  else
    let pk := {| pubkey := zeros PublicKeySize |} in
    let cParity := 42 in
    '(r, out, par) <- C_secp256k1_keypair_xonly_pub (keypair_data key) ;;
    let pk := {| pubkey := copy (pubkey pk) out |} in
    let cParity := match par with Some p => p | None => cParity end in
    if negb (r =? 1)
    then ret (None, false, Some (errors_New "the keypair contains invalid data"))
    else
      odd <- parityBitToBool cParity ;;
      ret (Some pk, odd, None).

(** [key.SchnorrPublicKey()] *)
Definition SchnorrPublicKey (key : SchnorrKeyPair)
  : Go (option PublicKey * option error) :=
  '(pk, _, err) <- schnorrPublicKeyInternal key ;;
  ret (pk, err).

(** [key.schnorrSignInternal(hash, auxiliaryRand)] *)
Definition schnorrSignInternal (key : SchnorrKeyPair) (hash auxiliaryRand : bytes)
  : Go (option SchnorrSignature * option error) :=
  if isZeroed key
  then ret (None, Some (errors_WithStack errZeroedKeyPair))
  else
    let sig := {| signature := zeros SignatureSize |} in
    '(r, out) <- C_secp256k1_schnorrsig_sign hash (keypair_data key) auxiliaryRand ;;
    let sig := {| signature := copy (signature sig) out |} in
    if negb (r =? 1)
    then ret (None, Some (errors_New
                "failed Signing. You should call `DeserializePrivateKey` before calling this"))
    else ret (Some sig, None).

(** [key.SchnorrSign(hash)] *)
Definition SchnorrSign (key : SchnorrKeyPair) (hash : bytes)
  : Go (option SchnorrSignature * option error) :=
  let auxilaryRand := zeros 32 in
  '(auxilaryRand, n, err) <- rand_Read auxilaryRand ;;
  if (match err with Some _ => true | None => false end)
     || negb (n =? Z.of_nat (length auxilaryRand))
  then ret (None, err)
  else schnorrSignInternal key hash auxilaryRand.

End GoCode.

(** ** What the Go code may expect of a curve engine *)

(** The secret a key pair record holds. *)
Definition secret_of (kp : bytes) : Z := be_decode (slice kp 0 32).

(** Modelled from the spec: the engine's construct-keypair-from-secret accepts
    every secret with [0 < secret < groupOrder], and the record it builds
    combines the 32-byte secret scalar with a 64-byte cached public-point
    representation. *)
Definition creates_from_valid_secrets (C : CurveEngine) : Prop :=
  forall seckey : bytes,
    length seckey = 32%nat ->
    0 < be_decode seckey < groupOrder ->
    exists pub : bytes,
      length pub = 64%nat /\ secp256k1_keypair_create C seckey = (1, seckey ++ pub).

(** The parity the engine reports for the public point of a key pair: [true]
    when it reports 1, an odd [y]. *)
Definition odd_parity (C : CurveEngine) (key : SchnorrKeyPair) : bool :=
  match snd (secp256k1_keypair_xonly_pub C (keypair_data key)) with
  | Some 1 => true
  | _ => false
  end.

(** Modelled from the spec: a successful tweak addition leaves [new secret =
    (old secret + tweak) mod groupOrder], "with sign/parity of the resulting
    x-only point adjusted by the Curve Engine": an x-only key stands for the
    point with even [y], so the engine first flips the sign of the secret of a
    key pair whose public point has odd [y]. *)
Definition adds_tweak_to_secret (C : CurveEngine) : Prop :=
  forall kp tweak out : bytes,
    length kp = KeyPairSize ->
    length tweak = 32%nat ->
    secp256k1_keypair_xonly_tweak_add C kp tweak = (1, out) ->
    length out = KeyPairSize /\
    secret_of out =
      ((if odd_parity C {| keypair_data := kp |}
        then groupOrder - secret_of kp else secret_of kp)
       + be_decode tweak) mod groupOrder.

(** Modelled from the spec: the two states of a key pair, "a KeyPair is
    either fully zeroed ... or fully valid (secret strictly between 1 and the
    curve group order minus 1)".  With the comment of [DeserializePrivateKey],
    "Group Order > key > 0", the Valid state is the 96-byte record whose
    secret [s] has [0 < s < groupOrder], and the Zeroed state is the all-zero
    record. *)
Definition Valid (key : SchnorrKeyPair) : Prop :=
  length (keypair_data key) = KeyPairSize
  /\ 0 < secret_of (keypair_data key) < groupOrder.

Definition Zeroed (key : SchnorrKeyPair) : Prop :=
  keypair_data key = zeros KeyPairSize.

(** Modelled from the spec: a key pair is "produced only by the Curve Engine
    from a validated secret": a record the engine hands out with its success
    flag, from a secret or from a tweak addition, has 96 bytes and holds a
    secret [s] with [0 < s < groupOrder]. *)
Definition hands_out_valid_secrets (C : CurveEngine) : Prop :=
  (forall seckey out : bytes,
      secp256k1_keypair_create C seckey = (1, out) ->
      Valid {| keypair_data := out |})
  /\
  (forall kp tweak out : bytes,
      secp256k1_keypair_xonly_tweak_add C kp tweak = (1, out) ->
      Valid {| keypair_data := out |}).

(** [crypto/rand.Read] is [io.ReadFull] on the Reader: "on return, n ==
    len(b) if and only if err == nil".  A reply of the randomness source
    that [rand.Read] can give for a buffer of [len] bytes reports no error
    exactly when it delivers all of them. *)
Definition ReadFull (reply : RandReply) (len : nat) : Prop :=
  rr_err reply = None <-> (len <= length (rr_data reply))%nat.

(** The three 32-byte segments of a key pair record, and what the spec says of
    them: a segment "is all-zero", or it contains a non-zero byte. *)
Definition secret_segment (key : SchnorrKeyPair) : bytes := slice (keypair_data key) 0 32.
Definition public_x_segment (key : SchnorrKeyPair) : bytes := slice (keypair_data key) 32 64.
Definition public_y_segment (key : SchnorrKeyPair) : bytes := slice (keypair_data key) 64 96.

Definition all_zero (s : bytes) : Prop := Forall (fun b => b = Byte.x00) s.
Definition has_nonzero_byte (s : bytes) : Prop := Exists (fun b => b <> Byte.x00) s.

(** The error [DeserializePrivateKeyFromSlice] makes for a slice of [len]
    bytes. *)
Definition lengthError (len : nat) : error :=
  errors_Errorf2 "invalid private key length got " (Z.of_nat len)
                 ", expected " SerializedPrivateKeySize.

(** The message of the panic in [parityBitToBool]. *)
Definition parityPanic (parity : Z) : string :=
  ("should never happen, parity should always be 1 or 0, instead got: "
   ++ fmt_d parity)%string.

(** The kinds of failure the spec names, as far as they are told apart by the
    error values of this file. *)
Definition isZeroedKeyError (e : error) : Prop := errors_Cause e = errZeroedKeyPair.

(** ** A reference curve engine *)

(** Modelled from the spec: the curve engine is the vendored libsecp256k1, an
    external collaborator whose code is not part of [schnorr_keypair.go].  The
    spec describes it at its boundary: it builds the 96-byte record (32-byte
    secret, then the cached public point) from a secret with [0 < secret <
    groupOrder], adds a tweak to an x-only key pair, reports the x-only public
    key with its parity, and signs after BIP-340.  The module follows the
    documented behaviour of those four functions over the secp256k1 curve.  It
    is the concrete engine at which the general statements are instantiated;
    the statements themselves hold for every engine that meets the stated
    contract. *)
Module Libsecp.

(** *** SHA-256 (FIPS 180-4), on 32-bit words held in [Z] *)
Module SHA256.

Definition w32 (x : Z) : Z := Z.land x 0xFFFFFFFF.
Definition add32 (x y : Z) : Z := w32 (x + y).
Definition rotr (k x : Z) : Z := Z.lor (Z.shiftr x k) (w32 (Z.shiftl x (32 - k))).
Definition Ch (x y z : Z) : Z := Z.lxor (Z.land x y) (Z.land (Z.lnot x) z).
Definition Maj (x y z : Z) : Z :=
  Z.lxor (Z.lxor (Z.land x y) (Z.land x z)) (Z.land y z).
Definition Sigma0 (x : Z) : Z := Z.lxor (Z.lxor (rotr 2 x) (rotr 13 x)) (rotr 22 x).
Definition Sigma1 (x : Z) : Z := Z.lxor (Z.lxor (rotr 6 x) (rotr 11 x)) (rotr 25 x).
Definition sigma0 (x : Z) : Z := Z.lxor (Z.lxor (rotr 7 x) (rotr 18 x)) (Z.shiftr x 3).
Definition sigma1 (x : Z) : Z := Z.lxor (Z.lxor (rotr 17 x) (rotr 19 x)) (Z.shiftr x 10).

Definition is_prime (k : nat) : bool :=
  forallb (fun d => negb (Nat.modulo k d =? 0)%nat) (seq 2 (k - 2)).

(** The first 64 primes. *)
Definition primes : list Z :=
  map Z.of_nat (filter is_prime (seq 2 310)).

(** The integer cube root of a number below [2 ^ 108]. *)
Definition icbrt (x : Z) : Z :=
  fold_left (fun r i => let r' := r + 2 ^ Z.of_nat i in
                        if r' * r' * r' <=? x then r' else r)
            (rev (seq 0 36)) 0.

(** The round constants: the first 32 bits of the fractional parts of the cube
    roots of the primes; the initial hash value: the same of the square roots
    of the first eight. *)
Definition K : list Z :=
  Eval vm_compute in map (fun q => w32 (icbrt (q * 2 ^ 96))) primes.
Definition H0 : list Z :=
  Eval vm_compute in map (fun q => w32 (Z.sqrt (q * 2 ^ 64))) (firstn 8 primes).

Definition pad (msg : bytes) : bytes :=
  let len := Z.of_nat (length msg) in
  msg ++ [Byte.x80] ++ zeros (Z.to_nat ((55 - len) mod 64)) ++ be_encode 8 (8 * len).

Fixpoint words (k : nat) (block : bytes) : list Z :=
  match k with
  | O => []
  | S k' => be_decode (firstn 4 block) :: words k' (skipn 4 block)
  end.

(** The message schedule, latest word first. *)
Definition schedule_step (ws : list Z) : list Z :=
  add32 (add32 (sigma1 (nth 1 ws 0)) (nth 6 ws 0))
        (add32 (sigma0 (nth 14 ws 0)) (nth 15 ws 0)) :: ws.

Definition schedule (block : bytes) : list Z :=
  rev (Nat.iter 48 schedule_step (rev (words 16 block))).

Definition round (st : list Z) (kw : Z * Z) : list Z :=
  match st with
  | [a; b; c; d; e; f; g; h] =>
      let t1 := add32 (add32 (add32 h (Sigma1 e)) (add32 (Ch e f g) (fst kw))) (snd kw) in
      let t2 := add32 (Sigma0 a) (Maj a b c) in
      [add32 t1 t2; a; b; c; add32 d t1; e; f; g]
  | _ => st
  end.

Definition compress (h : list Z) (block : bytes) : list Z :=
  map (fun xy => add32 (fst xy) (snd xy))
      (combine h (fold_left round (combine K (schedule block)) h)).

Fixpoint blocks (k : nat) (h : list Z) (data : bytes) : list Z :=
  match k with
  | O => h
  | S k' => blocks k' (compress h (firstn 64 data)) (skipn 64 data)
  end.

Definition sha256 (msg : bytes) : bytes :=
  let data := pad msg in
  flat_map (be_encode 4) (blocks (length data / 64) H0 data).

(** The tagged hash of BIP-340. *)
Definition tagged_hash (tag : string) (msg : bytes) : bytes :=
  let t := sha256 (list_byte_of_string tag) in
  sha256 (t ++ t ++ msg).

End SHA256.

(** *** The curve secp256k1: [y^2 = x^3 + 7] over the field of [p] elements

    The field arithmetic runs on [bigZ], so that a scalar multiplication can
    be evaluated; scalars and byte buffers stay in [Z]. *)

Definition p : bigZ := Eval vm_compute in (2 ^ 256 - 2 ^ 32 - 977)%bigZ.

Definition fmod (a : bigZ) : bigZ := BigZ.modulo a p.

Fixpoint powmod (a : bigZ) (e : positive) : bigZ :=
  match e with
  | xH => fmod a
  | xO e' => let r := powmod a e' in fmod (r * r)
  | xI e' => let r := powmod a e' in fmod (fmod (r * r) * a)
  end%bigZ.

(** The inverse in the field, by Fermat's little theorem. *)
Definition finv (a : bigZ) : bigZ :=
  powmod (fmod a) (Z.to_pos (BigZ.to_Z p - 2)).

Inductive point : Type :=
| Infinity
| Affine (x y : bigZ).

Definition G : point :=
  Affine (BigZ.of_Z 0x79BE667EF9DCBBAC55A06295CE870B07029BFCDB2DCE28D959F2815B16F81798)
         (BigZ.of_Z 0x483ADA7726A3C4655DA4FBFC0E1108A8FD17B448A68554199C47D08FFB10D4B8).

Definition chord (l x1 y1 x2 : bigZ) : point :=
  let x3 := fmod (l * l - x1 - x2) in
  Affine x3 (fmod (l * (x1 - x3) - y1)).

Definition padd (P Q : point) : point :=
  match P, Q with
  | Infinity, _ => Q
  | _, Infinity => P
  | Affine x1 y1, Affine x2 y2 =>
      if BigZ.eqb x1 x2
      then if BigZ.eqb (fmod (y1 + y2)) 0
           then Infinity
           else chord (fmod (3 * x1 * x1 * finv (2 * y1))) x1 y1 x2
      else chord (fmod ((y2 - y1) * finv (x2 - x1))) x1 y1 x2
  end%bigZ.

Definition pneg (P : point) : point :=
  match P with
  | Infinity => Infinity
  | Affine x y => Affine x (fmod (p - y))
  end%bigZ.

Fixpoint pmul_pos (k : positive) (P : point) : point :=
  match k with
  | xH => P
  | xO k' => let Q := pmul_pos k' P in padd Q Q
  | xI k' => let Q := pmul_pos k' P in padd (padd Q Q) P
  end.

Definition pmul (k : Z) (P : point) : point :=
  match k with
  | Zpos k' => pmul_pos k' P
  | _ => Infinity
  end.

Definition is_infinity (P : point) : bool :=
  match P with Infinity => true | Affine _ _ => false end.

Definition point_x (P : point) : Z :=
  match P with Infinity => 0 | Affine x _ => BigZ.to_Z x end.

Definition point_y (P : point) : Z :=
  match P with Infinity => 0 | Affine _ y => BigZ.to_Z y end.

Definition has_odd_y (P : point) : bool := Z.odd (point_y P).

(** *** Key pair records *)

(** [secp256k1_keypair_save]: the secret, then the two coordinates of the
    public point. *)
Definition keypair_save (sk : Z) (pk : point) : bytes :=
  be_encode 32 sk ++ be_encode 32 (point_x pk) ++ be_encode 32 (point_y pk).

(** [secp256k1_pubkey_load] on the public part of a record: refuses a point
    whose [x] is zero.  Where libsecp256k1 calls its illegal-argument callback
    (which aborts the process unless the caller installed another one), the
    functions below report the failure. *)
Definition pubkey_load (kp : bytes) : option point :=
  let x := be_decode (slice kp 32 64) in
  let y := be_decode (slice kp 64 96) in
  if x =? 0 then None else Some (Affine (BigZ.of_Z x) (BigZ.of_Z y)).

(** [secp256k1_keypair_seckey_load]: refuses a secret that is zero or not
    below the group order. *)
Definition seckey_load (kp : bytes) : option Z :=
  let sk := be_decode (slice kp 0 32) in
  if (0 <? sk) && (sk <? groupOrder) then Some sk else None.

(** [secp256k1_keypair_load] of the secret and the public point. *)
Definition keypair_load (kp : bytes) : option (Z * point) :=
  match pubkey_load kp, seckey_load kp with
  | Some pk, Some sk => Some (sk, pk)
  | _, _ => None
  end.

(** Modelled from the spec: construct-keypair-from-secret,
    [secp256k1_keypair_create]; on failure the record is zeroed. *)
Definition keypair_create (seckey : bytes) : Z * bytes :=
  let sk := be_decode (firstn 32 seckey) in
  if (0 <? sk) && (sk <? groupOrder)
  then (1, keypair_save sk (pmul sk G))
  else (0, zeros KeyPairSize).

(** Modelled from the spec: tweak-add-xonly,
    [secp256k1_keypair_xonly_tweak_add]; the secret is negated first when the
    public point has an odd [y], and in the words of the library's header the
    record "will be set to an invalid value if this function returns 0". *)
Definition keypair_xonly_tweak_add (kp tweak : bytes) : Z * bytes :=
  match keypair_load kp with
  | None => (0, zeros KeyPairSize)
  | Some (sk, pk) =>
      let sk := if has_odd_y pk then groupOrder - sk else sk in
      let t := be_decode (firstn 32 tweak) in
      let sk' := (sk + t) mod groupOrder in
      if (t <? groupOrder) && negb (sk' =? 0)
      then
        let pk' := padd (if has_odd_y pk then pneg pk else pk) (pmul t G) in
        if is_infinity pk'
        then (0, zeros KeyPairSize)
        else (1, keypair_save sk' pk')
      else (0, zeros KeyPairSize)
  end.

(** Modelled from the spec: extract-xonly-pubkey-and-parity,
    [secp256k1_keypair_xonly_pub]; it loads the public point only, and on
    failure the public key is zeroed and the parity is left alone. *)
Definition keypair_xonly_pub (kp : bytes) : Z * bytes * option Z :=
  match pubkey_load kp with
  | None => (0, zeros PublicKeySize, None)
  | Some pk =>
      (1, be_encode 32 (point_x pk), Some (if has_odd_y pk then 1 else 0))
  end.

Definition xor_bytes (a b : bytes) : bytes :=
  map (fun xy => byte.xor (fst xy) (snd xy)) (combine a b).

(** Modelled from the spec: sign-schnorr, [secp256k1_schnorrsig_sign] with
    [secp256k1_nonce_function_bip340] and 32 bytes of auxiliary randomness. *)
Definition schnorrsig_sign (msg kp aux : bytes) : Z * bytes :=
  match keypair_load kp with
  | None => (0, zeros SignatureSize)
  | Some (sk, pk) =>
      let d := if has_odd_y pk then groupOrder - sk else sk in
      let px := be_encode 32 (point_x pk) in
      let m := firstn 32 msg in
      let t := xor_bytes (be_encode 32 d)
                         (SHA256.tagged_hash "BIP0340/aux" (firstn 32 aux)) in
      let k0 := be_decode (SHA256.tagged_hash "BIP0340/nonce" (t ++ px ++ m))
                mod groupOrder in
      if k0 =? 0
      then (0, zeros SignatureSize)
      else
        let R := pmul k0 G in
        let k := if has_odd_y R then groupOrder - k0 else k0 in
        let rx := be_encode 32 (point_x R) in
        let e := be_decode (SHA256.tagged_hash "BIP0340/challenge" (rx ++ px ++ m))
                 mod groupOrder in
        (1, rx ++ be_encode 32 ((k + e * d) mod groupOrder))
  end.

Definition engine : CurveEngine :=
  {| secp256k1_keypair_create := keypair_create;
     secp256k1_keypair_xonly_tweak_add := keypair_xonly_tweak_add;
     secp256k1_keypair_xonly_pub := keypair_xonly_pub;
     secp256k1_schnorrsig_sign := schnorrsig_sign |}.

End Libsecp.

(** The world after one [Read]. *)
Definition after_read (w : World) : World :=
  {| rand_source := rand_source w;
     rand_reads := S (rand_reads w);
     engine_calls := engine_calls w |}.

(** The test both callers of [rand.Read] make on its results. *)
Definition read_failed (reply : RandReply) (len : nat) : bool :=
  (match rr_err reply with Some _ => true | None => false end)
  || negb (Z.of_nat (Nat.min (length (rr_data reply)) len) =? Z.of_nat len).

(** ** Concrete inputs *)

(** A key pair with a zeroed secret and a public part without a single zero
    byte. *)
Definition half_zeroed : SchnorrKeyPair :=
  {| keypair_data := zeros 32 ++ repeat Byte.x01 64 |}.

(** The zero value [SchnorrKeyPair{}]. *)
Definition zeroed_key : SchnorrKeyPair := {| keypair_data := zeros KeyPairSize |}.

(** A world in which nothing has happened yet and every [Read] is answered
    with [reply]. *)
Definition world_of (reply : RandReply) : World :=
  {| rand_source := fun _ => reply; rand_reads := 0; engine_calls := [] |}.

(** A randomness source that writes nothing and reports an error. *)
Definition failed_read : RandReply :=
  {| rr_data := []; rr_err := Some (errors_New "unexpected EOF") |}.

(** A randomness source that delivers the 32 bytes [bs]. *)
Definition full_read (bs : bytes) : RandReply := {| rr_data := bs; rr_err := None |}.

(** A read that is cut short after 31 bytes, with the error [io.ReadFull]
    reports for it. *)
Definition cut_short : RandReply :=
  {| rr_data := repeat Byte.x01 31; rr_err := Some (errors_New "unexpected EOF") |}.

(** A world in which nothing has happened yet, the first [Read] delivers 32
    zero bytes and every later one is cut short. *)
Definition zeros_then_cut_short : World :=
  {| rand_source := fun i => match i with O => full_read (zeros 32) | S _ => cut_short end;
     rand_reads := 0;
     engine_calls := [] |}.

(** The key pair of the secret 1, whose public point is the generator. *)
Definition key_one : SchnorrKeyPair :=
  {| keypair_data := Libsecp.keypair_save 1 Libsecp.G |}.

(** The tweak 1. *)
Definition tweak_one : bytes := be_encode 32 1.

(** The receiver after a call of [Add]. *)
Definition key_after (r : Result (SchnorrKeyPair * option error)) : SchnorrKeyPair :=
  match r with
  | Returns (key, _) _ => key
  | _ => zeroed_key
  end.

(** The secrets 2 and 3, reached from [key_one] by adding [tweak_one] once
    and twice. *)
Definition key_two : SchnorrKeyPair :=
  Eval vm_compute in
    key_after (Add Libsecp.engine key_one tweak_one (world_of (full_read (zeros 32)))).

Definition key_three : SchnorrKeyPair :=
  Eval vm_compute in
    key_after (Add Libsecp.engine key_two tweak_one (world_of (full_read (zeros 32)))).

(** An engine that answers like [C], except that it reports [parity] (or
    leaves the parity untouched, for [None]) with every public key. *)
Definition misreporting (C : CurveEngine) (parity : option Z) : CurveEngine :=
  {| secp256k1_keypair_create := secp256k1_keypair_create C;
     secp256k1_keypair_xonly_tweak_add := secp256k1_keypair_xonly_tweak_add C;
     secp256k1_keypair_xonly_pub :=
       fun kp => (fst (fst (secp256k1_keypair_xonly_pub C kp)),
                  snd (fst (secp256k1_keypair_xonly_pub C kp)),
                  parity);
     secp256k1_schnorrsig_sign := secp256k1_schnorrsig_sign C |}.

(** The encoding of the group order itself, a tweak that overflows. *)
Definition tweak_overflow : bytes := be_encode 32 groupOrder.

(** A randomness source that delivers 32 zero bytes on its first [Read] and
    the encoding of 1 from then on. *)
Definition zero_then_one : World :=
  {| rand_source := fun i => match i with
                             | O => full_read (zeros 32)
                             | S _ => full_read (be_encode 32 1)
                             end;
     rand_reads := 0;
     engine_calls := [] |}.

(** The key pair of the secret 6, whose public point has an odd [y]. *)
Definition key_six : SchnorrKeyPair :=
  Eval vm_compute in
    {| keypair_data := snd (Libsecp.keypair_create (be_encode 32 6)) |}.

(** ** Further notions for the properties of the code *)

(** The alphabet of [hex.EncodeToString]. *)
Definition hex_alphabet : list ascii := list_ascii_of_string "0123456789abcdef".

(** Modelled from the spec: the engine refuses a secret that is zero or not
    below the group order ("Fails with InvalidKeyError if zero, if >= group
    order"). *)
Definition rejects_invalid_secrets (C : CurveEngine) : Prop :=
  forall seckey : bytes,
    length seckey = 32%nat ->
    ~ (0 < be_decode seckey < groupOrder) ->
    fst (secp256k1_keypair_create C seckey) <> 1.

(** A round of the loop of [GeneratePrivateKey] in which the source delivers
    its 32 bytes and the engine refuses them, and one in which the engine
    accepts them. *)
Definition rejected_round (C : CurveEngine) (reply : RandReply) : Prop :=
  read_failed reply 32 = false
  /\ fst (secp256k1_keypair_create C (firstn 32 (rr_data reply))) <> 1.

Definition accepted_round (C : CurveEngine) (reply : RandReply) : Prop :=
  read_failed reply 32 = false
  /\ fst (secp256k1_keypair_create C (firstn 32 (rr_data reply))) = 1.

(** The engine calls that construct a key pair. *)
Definition is_create_call (c : EngineCall) : Prop :=
  match c with
  | call_keypair_create _ => True
  | _ => False
  end.

(** An engine that answers like [C], except that its extraction of the public
    key fails, after writing [parity]. *)
Definition failing_pub (C : CurveEngine) (parity : option Z) : CurveEngine :=
  {| secp256k1_keypair_create := secp256k1_keypair_create C;
     secp256k1_keypair_xonly_tweak_add := secp256k1_keypair_xonly_tweak_add C;
     secp256k1_keypair_xonly_pub := fun _ => (0, zeros PublicKeySize, parity);
     secp256k1_schnorrsig_sign := secp256k1_schnorrsig_sign C |}.

(** The key pair of the secret 4, reached from [key_two] by adding the
    tweak 2. *)
Definition key_four : SchnorrKeyPair :=
  Eval vm_compute in
    key_after (Add Libsecp.engine key_two (be_encode 32 2)
                 (world_of (full_read (zeros 32)))).

(** * Properties *)

(** ** Buffers and scalars *)

Lemma length_zeros (n : nat) : length (zeros n) = n.
Proof. apply repeat_length. Qed.

Lemma length_copy (dst src : bytes) : length (copy dst src) = length dst.
Proof. apply List.upds_length. Qed.

(** Writing as many bytes as the array holds replaces its content. *)
Lemma copy_full (dst src : bytes) : length src = length dst -> copy dst src = src.
Proof.
  intros Hlen. unfold copy.
  rewrite List.upds_0_skipn by lia.
  rewrite Hlen, skipn_all. apply app_nil_r.
Qed.

Lemma length_be_encode (n : nat) (z : Z) : length (be_encode n z) = n.
Proof. unfold be_encode. rewrite length_rev. apply length_le_split. Qed.

Lemma be_decode_encode (n : nat) (z : Z) :
  0 <= z < 2 ^ (Z.of_nat n * 8) -> be_decode (be_encode n z) = z.
Proof.
  intros Hz. unfold be_decode, be_encode.
  rewrite rev_involutive, le_combine_split. now apply Z.mod_small.
Qed.

Lemma be_encode_decode (bs : bytes) : be_encode (length bs) (be_decode bs) = bs.
Proof.
  unfold be_decode, be_encode.
  rewrite <- (length_rev bs), split_le_combine. apply rev_involutive.
Qed.

Lemma be_decode_bound (bs : bytes) : 0 <= be_decode bs < 2 ^ (8 * Z.of_nat (length bs)).
Proof.
  unfold be_decode. rewrite <- (length_rev bs). apply le_combine_bound.
Qed.

Lemma be_decode_zeros (n : nat) : be_decode (zeros n) = 0.
Proof.
  unfold be_decode, zeros. rewrite rev_repeat. apply le_combine_0.
Qed.

Lemma groupOrder_bound : 0 < groupOrder < 2 ^ 256.
Proof. unfold groupOrder. lia. Qed.

(** ** The zeroed test *)

Lemma isZeroed_slice_all_zero (s : bytes) : isZeroed_slice s = true <-> all_zero s.
Proof.
  unfold isZeroed_slice, all_zero. rewrite forallb_forall, Forall_forall.
  split; intros H b Hb.
  - apply Byte.byte_dec_bl. now apply H.
  - apply Byte.byte_dec_lb. now apply H.
Qed.

Lemma isZeroed_slice_nonzero (s : bytes) : isZeroed_slice s = false <-> has_nonzero_byte s.
Proof.
  unfold isZeroed_slice, has_nonzero_byte. rewrite Exists_exists. split.
  - intros H. induction s as [|b s IH]; [discriminate|].
    simpl in H. destruct (Byte.eqb b Byte.x00) eqn:Eb.
    + destruct (IH H) as [c [Hc Hne]]. exists c. split; [now right|exact Hne].
    + exists b. split; [now left|]. now apply Byte.eqb_false.
  - intros [b [Hb Hne]]. apply not_true_is_false. intros Hall.
    rewrite forallb_forall in Hall. apply Hne, Byte.byte_dec_bl, Hall, Hb.
Qed.

Lemma isZeroed_slice_zeros (n : nat) : isZeroed_slice (zeros n) = true.
Proof.
  apply isZeroed_slice_all_zero. unfold all_zero, zeros.
  apply Forall_forall. intros b Hb. now apply repeat_spec in Hb.
Qed.

(** On a 96-byte record the open-ended slice [data[64:]] is the third
    segment. *)
Lemma skipn_64_segment (key : SchnorrKeyPair) :
  length (keypair_data key) = KeyPairSize ->
  skipn 64 (keypair_data key) = public_y_segment key.
Proof.
  intros Hlen. unfold public_y_segment, slice.
  rewrite firstn_all2; [reflexivity|]. rewrite length_skipn, Hlen. simpl. lia.
Qed.

(** C1, as stated, fails: [isZeroed] answers [true] for a 96-byte record of
    which only the secret segment is all-zero, while both halves of the cached
    public representation contain non-zero bytes. *)
Lemma isZeroed_true_with_nonzero_segments :
  length (keypair_data half_zeroed) = KeyPairSize
  /\ isZeroed half_zeroed = true
  /\ has_nonzero_byte (public_x_segment half_zeroed)
  /\ has_nonzero_byte (public_y_segment half_zeroed)
  /\ ~ (all_zero (secret_segment half_zeroed)
        /\ all_zero (public_x_segment half_zeroed)
        /\ all_zero (public_y_segment half_zeroed)).
Proof.
  split; [reflexivity|]. split; [reflexivity|].
  assert (Hx : has_nonzero_byte (public_x_segment half_zeroed)).
  { apply isZeroed_slice_nonzero. reflexivity. }
  assert (Hy : has_nonzero_byte (public_y_segment half_zeroed)).
  { apply isZeroed_slice_nonzero. reflexivity. }
  repeat split; try assumption.
  intros [_ [Hzero _]]. apply isZeroed_slice_all_zero in Hzero. discriminate.
Qed.

(** C1, amended: [isZeroed] returns true if and only if at least one of the
    three 32-byte segments of the record (the secret, or one of the two halves
    of the cached public representation) is all-zero; it returns false exactly
    for the key pairs in which every one of the three segments contains a
    non-zero byte. *)
Theorem isZeroed_iff_some_segment_zero (key : SchnorrKeyPair) :
  length (keypair_data key) = KeyPairSize ->
  (isZeroed key = true <->
     all_zero (secret_segment key)
     \/ all_zero (public_x_segment key)
     \/ all_zero (public_y_segment key))
  /\
  (isZeroed key = false <->
     has_nonzero_byte (secret_segment key)
     /\ has_nonzero_byte (public_x_segment key)
     /\ has_nonzero_byte (public_y_segment key)).
Proof.
  intros Hlen. unfold isZeroed. rewrite (skipn_64_segment key Hlen).
  fold (secret_segment key) (public_x_segment key). split.
  - rewrite !orb_true_iff, !isZeroed_slice_all_zero. tauto.
  - rewrite !orb_false_iff, !isZeroed_slice_nonzero. tauto.
Qed.

Lemma isZeroed_iff_some_segment_zero_witness :
  isZeroed half_zeroed = true <->
    all_zero (secret_segment half_zeroed)
    \/ all_zero (public_x_segment half_zeroed)
    \/ all_zero (public_y_segment half_zeroed).
Proof.
  apply (isZeroed_iff_some_segment_zero half_zeroed). reflexivity.
Defined.

(** ** Running Go computations *)

Ltac run :=
  repeat (cbv beta iota delta
            [bind ret panic rand_Read C_secp256k1_keypair_create
             C_secp256k1_keypair_xonly_tweak_add C_secp256k1_keypair_xonly_pub
             C_secp256k1_schnorrsig_sign];
          cbn [fst snd]).

Lemma isZeroed_zeroed (key : SchnorrKeyPair) :
  keypair_data key = zeros KeyPairSize -> isZeroed key = true.
Proof. intros H. unfold isZeroed. rewrite H. reflexivity. Qed.

Lemma read_failed_short (reply : RandReply) (len : nat) :
  (length (rr_data reply) < len)%nat -> read_failed reply len = true.
Proof.
  intros Hshort. unfold read_failed. apply orb_true_iff. right.
  apply negb_true_iff, Z.eqb_neq. lia.
Qed.

Lemma read_failed_full (reply : RandReply) (len : nat) :
  rr_err reply = None -> (len <= length (rr_data reply))%nat ->
  read_failed reply len = false.
Proof.
  intros Herr Hlen. unfold read_failed. rewrite Herr. simpl.
  apply negb_false_iff, Z.eqb_eq. lia.
Qed.

Section Randomness.

Variable C : CurveEngine.

(** When the first draw fails, [GeneratePrivateKey] returns [nil] and the
    error of the randomness source, whatever that error is, and has not called
    the engine. *)
Lemma GeneratePrivateKey_read_failed (fuel : nat) (w : World) :
  read_failed (rand_source w (rand_reads w)) 32 = true ->
  GeneratePrivateKey C (S fuel) w
  = Returns (None, rr_err (rand_source w (rand_reads w))) (after_read w).
Proof.
  intros Hfail. unfold GeneratePrivateKey. cbn [GeneratePrivateKey_loop]. run.
  rewrite length_copy. unfold read_failed in Hfail.
  change (length (zeros (Z.to_nat SerializedPrivateKeySize))) with 32%nat.
  rewrite Hfail. reflexivity.
Qed.

(** The same for [SchnorrSign], on every key pair. *)
Lemma SchnorrSign_read_failed (key : SchnorrKeyPair) (hash : bytes) (w : World) :
  read_failed (rand_source w (rand_reads w)) 32 = true ->
  SchnorrSign C key hash w
  = Returns (None, rr_err (rand_source w (rand_reads w))) (after_read w).
Proof.
  intros Hfail. unfold SchnorrSign. run.
  rewrite length_copy. unfold read_failed in Hfail.
  change (length (zeros 32)) with 32%nat.
  rewrite Hfail. reflexivity.
Qed.

(** When the draw delivers, [SchnorrSign] is [schnorrSignInternal] on the
    bytes drawn. *)
Lemma SchnorrSign_read_full (key : SchnorrKeyPair) (hash : bytes) (w : World) :
  read_failed (rand_source w (rand_reads w)) 32 = false ->
  SchnorrSign C key hash w
  = schnorrSignInternal C key hash
      (copy (zeros 32) (rr_data (rand_source w (rand_reads w)))) (after_read w).
Proof.
  intros Hfull. unfold SchnorrSign. run.
  rewrite length_copy. unfold read_failed in Hfull.
  change (length (zeros 32)) with 32%nat.
  rewrite Hfull. reflexivity.
Qed.

End Randomness.

(** ** The zeroed-state gate *)

(** C3, as stated, fails for [SchnorrSign]: on the all-zero key pair and a
    randomness source that reports an error, the call returns that error, which
    is not the zeroed-key error. *)
Lemma SchnorrSign_zeroed_key_failed_read :
  exists e : error,
    SchnorrSign Libsecp.engine zeroed_key (zeros 32) (world_of failed_read)
    = Returns (None, Some e) (after_read (world_of failed_read))
    /\ ~ isZeroedKeyError e.
Proof.
  exists (errors_New "unexpected EOF"). split.
  - now rewrite SchnorrSign_read_failed.
  - unfold isZeroedKeyError. simpl. discriminate.
Qed.

(** C3, amended: for every key pair whose 96-byte record is all-zero, [Add]
    and [SchnorrPublicKey] fail with the zeroed-key error, and so does the
    signing routine [schnorrSignInternal]; [SchnorrSign] draws its auxiliary
    randomness first and fails with the zeroed-key error whenever that draw
    delivers its 32 bytes without an error.  None of these calls invokes a
    primitive of the curve engine: the list of engine calls is the same after
    the call as before it (for the first three the whole world is). *)
Theorem zeroed_key_is_gated
  (C : CurveEngine) (key : SchnorrKeyPair) (tweak hash aux : bytes) (w : World) :
  keypair_data key = zeros KeyPairSize ->
  isZeroedKeyError (errors_WithStack errZeroedKeyPair)
  /\ Add C key tweak w = Returns (key, Some (errors_WithStack errZeroedKeyPair)) w
  /\ SchnorrPublicKey C key w
     = Returns (None, Some (errors_WithStack errZeroedKeyPair)) w
  /\ schnorrSignInternal C key hash aux w
     = Returns (None, Some (errors_WithStack errZeroedKeyPair)) w
  /\ exists r w',
       SchnorrSign C key hash w = Returns r w'
       /\ engine_calls w' = engine_calls w
       /\ (read_failed (rand_source w (rand_reads w)) 32 = false ->
           r = (None, Some (errors_WithStack errZeroedKeyPair))).
Proof.
  intros Hzero. pose proof (isZeroed_zeroed key Hzero) as Hz.
  assert (Hsign : forall a w0,
             schnorrSignInternal C key hash a w0
             = Returns (None, Some (errors_WithStack errZeroedKeyPair)) w0).
  { intros a w0. unfold schnorrSignInternal. now rewrite Hz. }
  split; [reflexivity|].
  split; [unfold Add; now rewrite Hz|].
  split; [unfold SchnorrPublicKey, schnorrPublicKeyInternal; now rewrite Hz|].
  split; [apply Hsign|].
  destruct (read_failed (rand_source w (rand_reads w)) 32) eqn:Hread.
  - eexists _, _. split; [now apply SchnorrSign_read_failed|].
    split; [reflexivity|discriminate].
  - eexists _, _. split; [rewrite SchnorrSign_read_full by assumption; apply Hsign|].
    split; reflexivity.
Qed.

Lemma zeroed_key_is_gated_witness :
  Add Libsecp.engine zeroed_key (zeros 32) (world_of (full_read (zeros 32)))
  = Returns (zeroed_key, Some (errors_WithStack errZeroedKeyPair))
            (world_of (full_read (zeros 32))).
Proof.
  apply (zeroed_key_is_gated Libsecp.engine zeroed_key (zeros 32) (zeros 32) (zeros 32)
           (world_of (full_read (zeros 32)))).
  reflexivity.
Defined.

(** ** Deserialization *)

Section Deserialization.

Variable C : CurveEngine.

(** What [DeserializePrivateKey] returns, by the engine's answer. *)
Lemma DeserializePrivateKey_eq (data : bytes) (w : World) :
  DeserializePrivateKey C data w
  = (if fst (secp256k1_keypair_create C data) =? 1
     then Returns (Some {| keypair_data :=
                             copy (zeros KeyPairSize)
                                  (snd (secp256k1_keypair_create C data)) |}, None)
     else Returns (None, Some (errors_New
                     "invalid SchnorrKeyPair (zero or bigger than the group order)")))
      (log_call (call_keypair_create data) w).
Proof.
  unfold DeserializePrivateKey. run.
  destruct (secp256k1_keypair_create C data) as [r out]. cbn [fst snd].
  now destruct (r =? 1).
Qed.

(** On 32 bytes [DeserializePrivateKeyFromSlice] is [DeserializePrivateKey]. *)
Lemma DeserializePrivateKeyFromSlice_32 (data : bytes) (w : World) :
  length data = 32%nat ->
  DeserializePrivateKeyFromSlice C data w = DeserializePrivateKey C data w.
Proof.
  intros Hlen. unfold DeserializePrivateKeyFromSlice. rewrite Hlen. simpl.
  now rewrite copy_full.
Qed.

End Deserialization.

(** C4: for every slice whose length is not 32, [DeserializePrivateKeyFromSlice]
    fails with the length error; the world, and with it the list of engine
    calls, is left as it was, so no engine call was made; and the length error
    differs from every error [DeserializePrivateKey] reports when the engine
    rejects the value of a key. *)
Theorem wrong_length_is_rejected_first
  (C : CurveEngine) (data : bytes) (w : World) :
  length data <> 32%nat ->
  DeserializePrivateKeyFromSlice C data w
  = Returns (None, Some (lengthError (length data))) w
  /\ forall (C' : CurveEngine) (data' : bytes) (w' w'' : World)
            (key : option SchnorrKeyPair) (e : error),
       DeserializePrivateKey C' data' w' = Returns (key, Some e) w'' ->
       e <> lengthError (length data).
Proof.
  intros Hlen. split.
  - unfold DeserializePrivateKeyFromSlice.
    replace (Z.of_nat (length data) =? SerializedPrivateKeySize) with false;
      [reflexivity|].
    symmetry. apply Z.eqb_neq. unfold SerializedPrivateKeySize. lia.
  - intros C' data' w' w'' key e Hrun. rewrite DeserializePrivateKey_eq in Hrun.
    destruct (fst (secp256k1_keypair_create C' data') =? 1);
      inversion Hrun; subst.
    unfold lengthError, errors_Errorf2. simpl. discriminate.
Qed.

Lemma wrong_length_is_rejected_first_witness :
  DeserializePrivateKeyFromSlice Libsecp.engine (zeros 33) (world_of (full_read (zeros 32)))
  = Returns (None, Some (lengthError 33)) (world_of (full_read (zeros 32))).
Proof.
  apply (wrong_length_is_rejected_first Libsecp.engine (zeros 33)
           (world_of (full_read (zeros 32)))).
  simpl. lia.
Defined.

(** C10: for every input, [DeserializePrivateKey] and
    [DeserializePrivateKeyFromSlice] return, and what they return is either a
    key pair with a nil error or a nil key pair with an error. *)
Theorem deserialize_returns_key_or_error
  (C : CurveEngine) (data : bytes) (w : World) :
  (exists w',
      (exists key, DeserializePrivateKey C data w = Returns (Some key, None) w')
      \/ (exists e, DeserializePrivateKey C data w = Returns (None, Some e) w'))
  /\
  (exists w',
      (exists key, DeserializePrivateKeyFromSlice C data w = Returns (Some key, None) w')
      \/ (exists e, DeserializePrivateKeyFromSlice C data w = Returns (None, Some e) w')).
Proof.
  assert (H : forall d, exists w',
             (exists key, DeserializePrivateKey C d w = Returns (Some key, None) w')
             \/ (exists e, DeserializePrivateKey C d w = Returns (None, Some e) w')).
  { intros d. rewrite DeserializePrivateKey_eq.
    destruct (fst (secp256k1_keypair_create C d) =? 1); eauto. }
  split; [apply H|].
  unfold DeserializePrivateKeyFromSlice.
  destruct (negb (Z.of_nat (length data) =? SerializedPrivateKeySize)); [eauto|apply H].
Qed.

(** ** Serialization *)

(** The loop of [SerializePrivateKey], after [k] rounds: the first [k] cells
    hold the first [k] bytes of the record. *)
Lemma serialize_loop (data : bytes) (k : nat) (r : bytes) :
  (k <= length r)%nat -> (k <= length data)%nat ->
  fold_left (fun r i => List.upd r i (nth i data Byte.x00)) (seq 0 k) r
  = firstn k data ++ skipn k r.
Proof.
  induction k as [|k IH]; intros Hr Hdata; [reflexivity|].
  rewrite seq_S, fold_left_app, IH by lia. cbn [fold_left Nat.add].
  rewrite <- (List.firstn_nth _ k data Byte.x00) by lia.
  unfold List.upd, List.upds.
  assert (Hk : length (firstn k data) = k) by (rewrite length_firstn; lia).
  rewrite length_app, length_skipn, Hk.
  rewrite firstn_app, Hk, Nat.sub_diag, firstn_firstn, Nat.min_id.
  cbn [firstn]. rewrite app_nil_r.
  replace (k + (length r - k) - k)%nat with (S (length r - S k)) by lia.
  cbn [firstn length]. rewrite firstn_nil.
  rewrite skipn_app, Hk, (skipn_all2 (firstn k data)) by lia.
  replace (1 + k - k)%nat with 1%nat by lia.
  rewrite skipn_skipn. cbn [app Nat.add].
  now rewrite <- app_assoc.
Qed.

Lemma SerializePrivateKey_secret (key : SchnorrKeyPair) :
  (32 <= length (keypair_data key))%nat ->
  SerializePrivateKey key = firstn 32 (keypair_data key).
Proof.
  intros Hlen. unfold SerializePrivateKey.
  rewrite serialize_loop by (rewrite ?length_zeros; simpl; lia).
  change (skipn 32 (zeros (Z.to_nat SerializedPrivateKeySize))) with (@nil byte).
  apply app_nil_r.
Qed.

(** Behaviour for a zeroed key pair: the zero buffer. *)
Lemma SerializePrivateKey_zeroed : SerializePrivateKey zeroed_key = zeros 32.
Proof. reflexivity. Qed.

(** ** The reference engine meets the contract *)

Lemma slice_app_l (a b : bytes) (n : nat) : length a = n -> slice (a ++ b) 0 n = a.
Proof.
  intros Hlen. unfold slice. rewrite Nat.sub_0_r. cbn [skipn].
  rewrite firstn_app, Hlen, Nat.sub_diag, firstn_all2 by lia.
  cbn [firstn]. apply app_nil_r.
Qed.

Lemma slice_firstn (a : bytes) (n : nat) : slice a 0 n = firstn n a.
Proof. unfold slice. now rewrite Nat.sub_0_r. Qed.

Lemma Libsecp_length_keypair_save (sk : Z) (pk : Libsecp.point) :
  length (Libsecp.keypair_save sk pk) = KeyPairSize.
Proof.
  unfold Libsecp.keypair_save. rewrite !length_app, !length_be_encode. reflexivity.
Qed.

Lemma Libsecp_secret_of_keypair_save (sk : Z) (pk : Libsecp.point) :
  0 <= sk < groupOrder -> secret_of (Libsecp.keypair_save sk pk) = sk.
Proof.
  intros Hsk. unfold secret_of, Libsecp.keypair_save.
  rewrite slice_app_l by apply length_be_encode.
  apply be_decode_encode. pose proof groupOrder_bound. simpl. lia.
Qed.

Lemma Libsecp_creates_from_valid_secrets : creates_from_valid_secrets Libsecp.engine.
Proof.
  intros seckey Hlen Hrange. cbn [secp256k1_keypair_create Libsecp.engine].
  unfold Libsecp.keypair_create.
  rewrite firstn_all2 by lia.
  replace ((0 <? be_decode seckey) && (be_decode seckey <? groupOrder)) with true
    by (symmetry; apply andb_true_iff; split; [apply Z.ltb_lt|apply Z.ltb_lt]; lia).
  unfold Libsecp.keypair_save.
  assert (Henc : be_encode 32 (be_decode seckey) = seckey)
    by (rewrite <- Hlen; apply be_encode_decode).
  rewrite Henc.
  eexists. split; [|reflexivity].
  rewrite length_app, !length_be_encode. reflexivity.
Qed.

(** ** Round trip *)

(** C5: for every secret scalar [s] with [0 < s < groupOrder], on an engine
    that accepts the valid secrets and keeps the secret at the head of the
    record, [DeserializePrivateKey] of the 32-byte big-endian encoding of [s]
    succeeds, and [SerializePrivateKey] of the key pair it returns gives back
    exactly those 32 bytes. *)
Theorem serialize_deserialize_round_trip
  (C : CurveEngine) (s : Z) (w : World) :
  creates_from_valid_secrets C ->
  0 < s < groupOrder ->
  exists (key : SchnorrKeyPair) (w' : World),
    DeserializePrivateKey C (be_encode 32 s) w = Returns (Some key, None) w'
    /\ SerializePrivateKey key = be_encode 32 s
    /\ be_decode (SerializePrivateKey key) = s.
Proof.
  intros Hengine Hs. pose proof groupOrder_bound as Hn.
  assert (Hdec : be_decode (be_encode 32 s) = s)
    by (apply be_decode_encode; simpl; lia).
  destruct (Hengine (be_encode 32 s)) as [pub [Hpub Hcreate]].
  - apply length_be_encode.
  - now rewrite Hdec.
  - rewrite DeserializePrivateKey_eq, Hcreate. cbn [fst snd Z.eqb Pos.eqb].
    eexists _, _. split; [reflexivity|].
    assert (Hser : SerializePrivateKey
                     {| keypair_data := copy (zeros KeyPairSize) (be_encode 32 s ++ pub) |}
                   = be_encode 32 s).
    { rewrite SerializePrivateKey_secret; cbn [keypair_data].
      - rewrite copy_full
          by (rewrite length_app, length_be_encode, Hpub, length_zeros; reflexivity).
        rewrite <- slice_firstn. apply slice_app_l, length_be_encode.
      - rewrite length_copy, length_zeros. unfold KeyPairSize. lia. }
    split; [exact Hser|]. now rewrite Hser.
Qed.

Lemma serialize_deserialize_round_trip_witness :
  exists (key : SchnorrKeyPair) (w' : World),
    DeserializePrivateKey Libsecp.engine (be_encode 32 1) (world_of (full_read (zeros 32)))
    = Returns (Some key, None) w'
    /\ SerializePrivateKey key = be_encode 32 1
    /\ be_decode (SerializePrivateKey key) = 1.
Proof.
  apply (serialize_deserialize_round_trip Libsecp.engine 1
           (world_of (full_read (zeros 32))) Libsecp_creates_from_valid_secrets).
  unfold groupOrder. lia.
Defined.

(** ** Tweak addition *)

Section TweakAddition.

Variable C : CurveEngine.

(** What [Add] returns, by the gate and the engine's answer. *)
Lemma Add_eq (key : SchnorrKeyPair) (tweak : bytes) (w : World) :
  Add C key tweak w
  = if isZeroed key
    then Returns (key, Some (errors_WithStack errZeroedKeyPair)) w
    else
      Returns
        ({| keypair_data :=
              copy (keypair_data key)
                   (snd (secp256k1_keypair_xonly_tweak_add C (keypair_data key) tweak)) |},
         if fst (secp256k1_keypair_xonly_tweak_add C (keypair_data key) tweak) =? 1
         then None
         else Some (errors_New
                "failed Adding to private key. Tweak is bigger than the order or the complement of the private key"))
        (log_call (call_keypair_xonly_tweak_add (keypair_data key) tweak) w).
Proof.
  unfold Add. destruct (isZeroed key); [reflexivity|]. run.
  destruct (secp256k1_keypair_xonly_tweak_add C (keypair_data key) tweak) as [r out].
  cbn [fst snd]. now destruct (r =? 1).
Qed.

(** A successful [Add] passed the gate and stored a record the engine handed
    out with its success flag. *)
Lemma Add_success (key key' : SchnorrKeyPair) (tweak : bytes) (w : World) :
  returned (Add C key tweak w) = Some (key', None) ->
  isZeroed key = false
  /\ exists out : bytes,
       secp256k1_keypair_xonly_tweak_add C (keypair_data key) tweak = (1, out)
       /\ keypair_data key' = copy (keypair_data key) out.
Proof.
  rewrite Add_eq. destruct (isZeroed key); [discriminate|].
  destruct (secp256k1_keypair_xonly_tweak_add C (keypair_data key) tweak) as [r out].
  cbn [fst snd returned]. destruct (r =? 1) eqn:Hr; [|discriminate].
  intros H. inversion H. apply Z.eqb_eq in Hr. subst r.
  split; [reflexivity|]. now exists out.
Qed.

Hypothesis engine_adds : adds_tweak_to_secret C.

(** One successful [Add] without a flip of the sign: the secret grows by the
    tweak. *)
Lemma Add_secret (key key' : SchnorrKeyPair) (tweak : bytes) (w : World) :
  length (keypair_data key) = KeyPairSize ->
  length tweak = 32%nat ->
  returned (Add C key tweak w) = Some (key', None) ->
  odd_parity C key = false ->
  length (keypair_data key') = KeyPairSize
  /\ secret_of (keypair_data key')
     = (secret_of (keypair_data key) + be_decode tweak) mod groupOrder.
Proof.
  intros Hlen Htweak Hrun Heven.
  destruct (Add_success _ _ _ _ Hrun) as [_ [out [Hout Hkey']]].
  destruct (engine_adds _ _ _ Hlen Htweak Hout) as [Hlen' Hsecret].
  rewrite Hkey', copy_full by congruence.
  split; [exact Hlen'|]. rewrite Hsecret.
  destruct key as [kp]. cbn [keypair_data] in *. now rewrite Heven.
Qed.

End TweakAddition.

Lemma SerializePrivateKey_secret_of (key : SchnorrKeyPair) :
  length (keypair_data key) = KeyPairSize ->
  length (SerializePrivateKey key) = 32%nat
  /\ be_decode (SerializePrivateKey key) = secret_of (keypair_data key).
Proof.
  intros Hlen. rewrite SerializePrivateKey_secret by (rewrite Hlen; unfold KeyPairSize; lia).
  split.
  - rewrite length_firstn, Hlen. reflexivity.
  - unfold secret_of. now rewrite slice_firstn.
Qed.

Lemma be_decode_inj (a b : bytes) :
  length a = length b -> be_decode a = be_decode b -> a = b.
Proof.
  intros Hlen Heq. rewrite <- (be_encode_decode a), <- (be_encode_decode b).
  now rewrite Hlen, Heq.
Qed.

Lemma Libsecp_keypair_load (kp : bytes) (sk : Z) (pk : Libsecp.point) :
  Libsecp.keypair_load kp = Some (sk, pk) ->
  Libsecp.pubkey_load kp = Some pk
  /\ sk = secret_of kp /\ 0 < sk < groupOrder.
Proof.
  unfold Libsecp.keypair_load, Libsecp.seckey_load, secret_of.
  destruct (Libsecp.pubkey_load kp) as [pk0|]; [|discriminate].
  destruct ((0 <? be_decode (slice kp 0 32))
            && (be_decode (slice kp 0 32) <? groupOrder)) eqn:Hok; [|discriminate].
  intros H. inversion H. subst.
  apply andb_true_iff in Hok. destruct Hok as [Hpos Hlt].
  apply Z.ltb_lt in Hpos. apply Z.ltb_lt in Hlt. auto.
Qed.

Lemma Libsecp_adds_tweak_to_secret : adds_tweak_to_secret Libsecp.engine.
Proof.
  intros kp tweak out Hkp Htweak Hrun.
  unfold odd_parity.
  cbn [secp256k1_keypair_xonly_tweak_add secp256k1_keypair_xonly_pub
       Libsecp.engine keypair_data] in *.
  unfold Libsecp.keypair_xonly_tweak_add in Hrun. unfold Libsecp.keypair_xonly_pub.
  destruct (Libsecp.keypair_load kp) as [[sk pk]|] eqn:Hload; [|discriminate].
  destruct (Libsecp_keypair_load _ _ _ Hload) as [Hpub [Hsk Hrange]].
  rewrite firstn_all2 in Hrun by lia.
  rewrite Hpub. cbn [snd].
  set (sk0 := if Libsecp.has_odd_y pk then groupOrder - sk else sk) in *.
  destruct ((be_decode tweak <? groupOrder)
            && negb ((sk0 + be_decode tweak) mod groupOrder =? 0)); [|discriminate].
  destruct (Libsecp.is_infinity _); [discriminate|].
  inversion Hrun. subst out. clear Hrun.
  split; [apply Libsecp_length_keypair_save|].
  rewrite Libsecp_secret_of_keypair_save
    by (apply Z.mod_pos_bound; pose proof groupOrder_bound; lia).
  subst sk0 sk. now destruct (Libsecp.has_odd_y pk).
Qed.

(** C6: on an engine whose tweak addition adds the tweak to the secret modulo
    the group order, take a key pair and two 32-byte tweaks [t1] and [t2].  If
    [Add t1] followed by [Add t2] succeeds on one copy, [Add] of the encoding
    of [(t1 + t2) mod groupOrder] succeeds on another copy, and no flip of the
    sign occurs on either path (the public point has an even [y] each time
    [Add] is entered), then both copies end with the same secret scalar modulo
    the group order, indeed with the same 32 secret bytes. *)
Theorem tweaks_add_up
  (C : CurveEngine) (key k1 k2 k12 : SchnorrKeyPair) (t1 t2 : bytes)
  (w1 w2 w3 : World) :
  adds_tweak_to_secret C ->
  length (keypair_data key) = KeyPairSize ->
  length t1 = 32%nat ->
  length t2 = 32%nat ->
  returned (Add C key t1 w1) = Some (k1, None) ->
  returned (Add C k1 t2 w2) = Some (k2, None) ->
  returned (Add C key (be_encode 32 ((be_decode t1 + be_decode t2) mod groupOrder)) w3)
  = Some (k12, None) ->
  odd_parity C key = false ->
  odd_parity C k1 = false ->
  be_decode (SerializePrivateKey k2) mod groupOrder
  = be_decode (SerializePrivateKey k12) mod groupOrder
  /\ SerializePrivateKey k2 = SerializePrivateKey k12.
Proof.
  intros Hengine Hlen Ht1 Ht2 Hrun1 Hrun2 Hrun12 Heven Heven1.
  pose proof groupOrder_bound as Hn.
  destruct (Add_secret C Hengine _ _ _ _ Hlen Ht1 Hrun1 Heven) as [Hlen1 Hs1].
  destruct (Add_secret C Hengine _ _ _ _ Hlen1 Ht2 Hrun2 Heven1) as [Hlen2 Hs2].
  destruct (Add_secret C Hengine _ _ _ _ Hlen (length_be_encode _ _) Hrun12 Heven)
    as [Hlen12 Hs12].
  rewrite be_decode_encode in Hs12
    by (pose proof (Z.mod_pos_bound (be_decode t1 + be_decode t2) groupOrder);
        simpl; lia).
  destruct (SerializePrivateKey_secret_of k2 Hlen2) as [Hl2 Hd2].
  destruct (SerializePrivateKey_secret_of k12 Hlen12) as [Hl12 Hd12].
  assert (Hsame : be_decode (SerializePrivateKey k2) = be_decode (SerializePrivateKey k12)).
  { rewrite Hd2, Hd12, Hs2, Hs1, Hs12.
    rewrite Zplus_mod_idemp_l, Zplus_mod_idemp_r. f_equal. lia. }
  split; [now rewrite Hsame|].
  apply be_decode_inj; congruence.
Qed.

Lemma tweaks_add_up_witness :
  be_decode (SerializePrivateKey key_three) mod groupOrder
  = be_decode (SerializePrivateKey
                 (key_after (Add Libsecp.engine key_one (be_encode 32 2)
                               (world_of (full_read (zeros 32)))))) mod groupOrder.
Proof.
  apply (tweaks_add_up Libsecp.engine key_one key_two key_three
           (key_after (Add Libsecp.engine key_one (be_encode 32 2)
                         (world_of (full_read (zeros 32)))))
           tweak_one tweak_one
           (world_of (full_read (zeros 32))) (world_of (full_read (zeros 32)))
           (world_of (full_read (zeros 32)))
           Libsecp_adds_tweak_to_secret).
  - reflexivity.
  - reflexivity.
  - reflexivity.
  - vm_compute. reflexivity.
  - vm_compute. reflexivity.
  - vm_compute. reflexivity.
  - vm_compute. reflexivity.
  - vm_compute. reflexivity.
Defined.

(** Where the sign flips, the tweaks do not add up: the public point of the
    secret 6 has an odd [y], so adding 1 leads to [groupOrder - 5], whose
    public point has an odd [y] again, and adding 1 once more leads back to 6;
    adding 2 at once leads to [groupOrder - 4]. *)
Example flips_break_the_sum :
  let w := world_of (full_read (zeros 32)) in
  let k1 := key_after (Add Libsecp.engine key_six tweak_one w) in
  let k2 := key_after (Add Libsecp.engine k1 tweak_one w) in
  let k12 := key_after (Add Libsecp.engine key_six (be_encode 32 2) w) in
  odd_parity Libsecp.engine key_six = true
  /\ be_decode (SerializePrivateKey k1) = groupOrder - 5
  /\ odd_parity Libsecp.engine k1 = true
  /\ be_decode (SerializePrivateKey k2) = 6
  /\ be_decode (SerializePrivateKey k12) = groupOrder - 4.
Proof. vm_compute. repeat split; reflexivity. Qed.

(** ** The parity of the public key *)

Lemma parityBitToBool_eq (parity : Z) (w : World) :
  parityBitToBool parity w
  = if parity =? 0 then Returns false w
    else if parity =? 1 then Returns true w
    else Panics (parityPanic parity) w.
Proof.
  destruct parity as [|q|q]; [reflexivity| |reflexivity].
  destruct q; reflexivity.
Qed.

(** C7: whenever the engine reports a public key with success, the parity it
    wrote (or the 42 the Go variable held, if the engine wrote none) is
    converted at once: 0 becomes [false] (even), 1 becomes [true] (odd), and
    on any other value [parityBitToBool], and with it
    [schnorrPublicKeyInternal] and [SchnorrPublicKey], panics; such a value is
    neither returned as an error nor cut down to a boolean. *)
Theorem parity_is_converted_or_fatal
  (C : CurveEngine) (key : SchnorrKeyPair) (w : World) (out : bytes) (par : option Z) :
  isZeroed key = false ->
  secp256k1_keypair_xonly_pub C (keypair_data key) = (1, out, par) ->
  let parity := match par with Some q => q | None => 42 end in
  let pk := {| pubkey := copy (zeros PublicKeySize) out |} in
  let w' := log_call (call_keypair_xonly_pub (keypair_data key)) w in
  parityBitToBool parity w'
  = (if parity =? 0 then Returns false w'
     else if parity =? 1 then Returns true w'
     else Panics (parityPanic parity) w')
  /\ schnorrPublicKeyInternal C key w
     = (if parity =? 0 then Returns (Some pk, false, None) w'
        else if parity =? 1 then Returns (Some pk, true, None) w'
        else Panics (parityPanic parity) w')
  /\ SchnorrPublicKey C key w
     = (if parity =? 0 then Returns (Some pk, None) w'
        else if parity =? 1 then Returns (Some pk, None) w'
        else Panics (parityPanic parity) w').
Proof.
  intros Hvalid Hpub parity pk w'.
  split; [apply parityBitToBool_eq|].
  assert (Hinternal : schnorrPublicKeyInternal C key w
     = (if parity =? 0 then Returns (Some pk, false, None) w'
        else if parity =? 1 then Returns (Some pk, true, None) w'
        else Panics (parityPanic parity) w')).
  { unfold schnorrPublicKeyInternal. rewrite Hvalid.
    unfold bind at 1. unfold C_secp256k1_keypair_xonly_pub. rewrite Hpub.
    cbn [Z.eqb Pos.eqb negb]. unfold bind. fold parity w'.
    rewrite parityBitToBool_eq.
    destruct (parity =? 0); [reflexivity|]. now destruct (parity =? 1). }
  split; [exact Hinternal|].
  unfold SchnorrPublicKey, bind. rewrite Hinternal.
  destruct (parity =? 0); [reflexivity|]. now destruct (parity =? 1).
Qed.

Lemma parity_is_converted_or_fatal_witness :
  exists pk : PublicKey,
    returned (schnorrPublicKeyInternal Libsecp.engine key_one
                (world_of (full_read (zeros 32))))
    = Some (Some pk, false, None).
Proof.
  eexists.
  rewrite (proj1 (proj2 (parity_is_converted_or_fatal Libsecp.engine key_one
                           (world_of (full_read (zeros 32)))
                           (be_encode 32 (Libsecp.point_x Libsecp.G)) (Some 0)
                           eq_refl eq_refl))).
  reflexivity.
Defined.

(** A parity of 2, and a parity left unwritten, end in the panic. *)
Example parity_two_panics :
  schnorrPublicKeyInternal (misreporting Libsecp.engine (Some 2)) key_one
    (world_of (full_read (zeros 32)))
  = Panics "should never happen, parity should always be 1 or 0, instead got: 2"
      (log_call (call_keypair_xonly_pub (keypair_data key_one))
                (world_of (full_read (zeros 32)))).
Proof. vm_compute. reflexivity. Qed.

Example parity_unwritten_panics :
  SchnorrPublicKey (misreporting Libsecp.engine None) key_one
    (world_of (full_read (zeros 32)))
  = Panics "should never happen, parity should always be 1 or 0, instead got: 42"
      (log_call (call_keypair_xonly_pub (keypair_data key_one))
                (world_of (full_read (zeros 32)))).
Proof. vm_compute. reflexivity. Qed.

(** ** Signing *)

Lemma length_signature_buffer (out : bytes) :
  length (copy (zeros SignatureSize) out) = 64%nat.
Proof. now rewrite length_copy, length_zeros. Qed.

Lemma schnorrSignInternal_eq
  (C : CurveEngine) (key : SchnorrKeyPair) (hash aux : bytes) (w : World) :
  schnorrSignInternal C key hash aux w
  = if isZeroed key
    then Returns (None, Some (errors_WithStack errZeroedKeyPair)) w
    else
      Returns
        (if fst (secp256k1_schnorrsig_sign C hash (keypair_data key) aux) =? 1
         then (Some {| signature :=
                         copy (zeros SignatureSize)
                              (snd (secp256k1_schnorrsig_sign C hash (keypair_data key) aux)) |},
               None)
         else (None, Some (errors_New
                 "failed Signing. You should call `DeserializePrivateKey` before calling this")))
        (log_call (call_schnorrsig_sign hash (keypair_data key) aux) w).
Proof.
  unfold schnorrSignInternal. destruct (isZeroed key); [reflexivity|]. run.
  destruct (secp256k1_schnorrsig_sign C hash (keypair_data key) aux) as [r out].
  cbn [fst snd]. now destruct (r =? 1).
Qed.

(** C8: the signing routine [schnorrSignInternal] is a function of the key
    pair, the message hash and the auxiliary randomness alone: whatever the
    state of the world (the randomness source, the calls made before), two
    invocations on the same triple return, and return the same signature with
    the same error; a signature they return has 64 bytes. *)
Theorem signing_is_deterministic
  (C : CurveEngine) (key : SchnorrKeyPair) (hash aux : bytes) (w1 w2 : World) :
  exists r : option SchnorrSignature * option error,
    returned (schnorrSignInternal C key hash aux w1) = Some r
    /\ returned (schnorrSignInternal C key hash aux w2) = Some r
    /\ match fst r with
       | Some sig => length (signature sig) = 64%nat
       | None => True
       end.
Proof.
  rewrite !schnorrSignInternal_eq.
  destruct (isZeroed key).
  - eexists. split; [reflexivity|]. split; [reflexivity|exact I].
  - eexists. split; [reflexivity|]. split; [reflexivity|].
    destruct (fst (secp256k1_schnorrsig_sign C hash (keypair_data key) aux) =? 1);
      [apply length_signature_buffer|exact I].
Qed.

(** ** The life cycle of a key pair *)

Lemma all_zero_decodes_to_zero (s : bytes) : all_zero s -> be_decode s = 0.
Proof.
  intros Hzero.
  assert (Hs : s = zeros (length s)).
  { unfold zeros. induction Hzero as [|b s Hb _ IH]; [reflexivity|].
    cbn [length repeat]. now rewrite Hb, <- IH. }
  rewrite Hs. apply be_decode_zeros.
Qed.

(** A Valid key pair is not in the Zeroed state, and its secret segment is not
    all-zero. *)
Lemma Valid_not_Zeroed (key : SchnorrKeyPair) :
  Valid key -> ~ Zeroed key /\ has_nonzero_byte (secret_segment key).
Proof.
  intros [Hlen Hsecret]. split.
  - unfold Zeroed. intros Hzero. rewrite Hzero in Hsecret.
    vm_compute in Hsecret. destruct Hsecret as [Hpos _]. discriminate Hpos.
  - apply isZeroed_slice_nonzero.
    destruct (isZeroed_slice (secret_segment key)) eqn:Hz; [|reflexivity].
    apply isZeroed_slice_all_zero, all_zero_decodes_to_zero in Hz.
    unfold secret_of in Hsecret. unfold secret_segment in Hz. lia.
Qed.

(** The reference engine hands out valid secrets only, and zeroes the record
    of a tweak addition it rejects. *)
Lemma Libsecp_hands_out_valid_secrets : hands_out_valid_secrets Libsecp.engine.
Proof.
  pose proof groupOrder_bound as Hn. split.
  - intros seckey out. cbn [secp256k1_keypair_create Libsecp.engine].
    unfold Libsecp.keypair_create.
    generalize (be_decode (firstn 32 seckey)). intros sk.
    destruct ((0 <? sk) && (sk <? groupOrder)) eqn:Hin; [|discriminate].
    apply andb_true_iff in Hin. destruct Hin as [Hpos Hlt].
    apply Z.ltb_lt in Hpos. apply Z.ltb_lt in Hlt.
    intros H. injection H as Hout. subst out. split; cbn [keypair_data].
    + apply Libsecp_length_keypair_save.
    + rewrite Libsecp_secret_of_keypair_save by lia. lia.
  - intros kp tweak out.
    cbn [secp256k1_keypair_xonly_tweak_add Libsecp.engine].
    unfold Libsecp.keypair_xonly_tweak_add.
    destruct (Libsecp.keypair_load kp) as [[sk pk]|]; [|discriminate].
    set (sk' := ((if Libsecp.has_odd_y pk then groupOrder - sk else sk)
                 + be_decode (firstn 32 tweak)) mod groupOrder).
    assert (Hb : 0 <= sk' < groupOrder) by (apply Z.mod_pos_bound; lia).
    clearbody sk'.
    destruct ((be_decode (firstn 32 tweak) <? groupOrder) && negb (sk' =? 0)) eqn:Hok;
      [|discriminate].
    destruct (Libsecp.is_infinity _); [discriminate|].
    apply andb_true_iff in Hok. destruct Hok as [_ Hnz].
    apply negb_true_iff, Z.eqb_neq in Hnz.
    intros H. injection H as Hout. subst out. split; cbn [keypair_data].
    + apply Libsecp_length_keypair_save.
    + rewrite Libsecp_secret_of_keypair_save by lia. lia.
Qed.

Lemma Libsecp_rejected_tweak_zeroes (kp tweak : bytes) :
  fst (Libsecp.keypair_xonly_tweak_add kp tweak) <> 1 ->
  snd (Libsecp.keypair_xonly_tweak_add kp tweak) = zeros KeyPairSize.
Proof.
  unfold Libsecp.keypair_xonly_tweak_add.
  destruct (Libsecp.keypair_load kp) as [[sk pk]|]; [|reflexivity].
  destruct (_ && _); [|reflexivity].
  destruct (Libsecp.is_infinity _); [reflexivity|].
  cbn [fst]. intros H. now contradiction H.
Qed.

Section LifeCycle.

Variable C : CurveEngine.

(** A key pair [DeserializePrivateKey] returns is a record the engine handed
    out with its success flag, and comes without an error. *)
Lemma DeserializePrivateKey_success
  (data : bytes) (w w' : World) (key : SchnorrKeyPair) (e : option error) :
  DeserializePrivateKey C data w = Returns (Some key, e) w' ->
  e = None
  /\ exists out : bytes,
       secp256k1_keypair_create C data = (1, out)
       /\ keypair_data key = copy (zeros KeyPairSize) out.
Proof.
  rewrite DeserializePrivateKey_eq.
  destruct (secp256k1_keypair_create C data) as [r out]. cbn [fst snd].
  destruct (r =? 1) eqn:Hr; intros H; inversion H; subst.
  apply Z.eqb_eq in Hr. subst r. split; [reflexivity|]. now exists out.
Qed.

(** A key pair [GeneratePrivateKey] returns is one [DeserializePrivateKey]
    returned on the bytes drawn. *)
Lemma GeneratePrivateKey_loop_success (fuel : nat) :
  forall (rawKey : bytes) (w w' : World) (key : SchnorrKeyPair) (e : option error),
    GeneratePrivateKey_loop C fuel rawKey w = Returns (Some key, e) w' ->
    exists (data : bytes) (w0 : World),
      DeserializePrivateKey C data w0 = Returns (Some key, e) w'.
Proof.
  induction fuel as [|fuel IH]; intros rawKey w w' key e; [discriminate|].
  cbn [GeneratePrivateKey_loop]. unfold bind at 1. unfold rand_Read.
  destruct (_ || _); [discriminate|].
  unfold bind.
  destruct (DeserializePrivateKey C _ _) as [[k [e0|]] w1|msg w1|] eqn:Hd;
    try discriminate.
  - apply IH.
  - unfold ret. intros H. inversion H. subst. eauto.
Qed.

Hypothesis engine_valid : hands_out_valid_secrets C.

Lemma DeserializePrivateKey_Valid
  (data : bytes) (w w' : World) (key : SchnorrKeyPair) (e : option error) :
  DeserializePrivateKey C data w = Returns (Some key, e) w' -> Valid key.
Proof.
  intros Hrun.
  destruct (DeserializePrivateKey_success _ _ _ _ _ Hrun) as [_ [out [Hout Hkey]]].
  destruct (proj1 engine_valid _ _ Hout) as [Hvalid Hsecret].
  cbn [keypair_data] in Hvalid, Hsecret.
  rewrite copy_full in Hkey by (now rewrite Hvalid, length_zeros).
  destruct key as [kp]. cbn [keypair_data] in Hkey. subst kp. now split.
Qed.

Lemma Add_Valid
  (key key' : SchnorrKeyPair) (tweak : bytes) (w : World) :
  length (keypair_data key) = KeyPairSize ->
  returned (Add C key tweak w) = Some (key', None) -> Valid key'.
Proof.
  intros Hlen Hrun.
  destruct (Add_success C _ _ _ _ Hrun) as [_ [out [Hout Hkey]]].
  destruct (proj2 engine_valid _ _ _ Hout) as [Hvalid Hsecret].
  cbn [keypair_data] in Hvalid, Hsecret.
  rewrite copy_full in Hkey by (now rewrite Hvalid, Hlen).
  destruct key' as [kp]. cbn [keypair_data] in Hkey. subst kp. now split.
Qed.

End LifeCycle.

(** C9, as stated, fails in its last part: an [Add] that the engine rejects
    takes a Valid key pair back to the Zeroed state.  The key pair of the
    secret 1, as [DeserializePrivateKey] returns it, is Valid and passes the
    gate; [Add] of a tweak that is not below the group order fails on it, and
    the record it leaves behind is the all-zero record, of which [isZeroed]
    holds. *)
Lemma failed_Add_zeroes_a_valid_key :
  DeserializePrivateKey Libsecp.engine (be_encode 32 1) (world_of (full_read (zeros 32)))
  = Returns (Some key_one, None)
      (log_call (call_keypair_create (be_encode 32 1)) (world_of (full_read (zeros 32))))
  /\ Valid key_one
  /\ isZeroed key_one = false
  /\ (exists e : error,
        returned (Add Libsecp.engine key_one tweak_overflow
                    (world_of (full_read (zeros 32))))
        = Some (zeroed_key, Some e))
  /\ Zeroed zeroed_key
  /\ isZeroed zeroed_key = true.
Proof.
  split; [vm_compute; reflexivity|].
  split; [split; [reflexivity|vm_compute; split; reflexivity]|].
  split; [vm_compute; reflexivity|].
  split; [eexists; vm_compute; reflexivity|].
  split; reflexivity.
Qed.

(** C9, amended: the life cycle has the two states Zeroed (the all-zero
    record) and Valid (a 96-byte record whose secret [s] has [0 < s <
    groupOrder]), and a Valid key pair is never a Zeroed one.  On an engine
    that hands out only valid secrets with its success flag, every key pair
    returned by a successful [DeserializePrivateKey],
    [DeserializePrivateKeyFromSlice] or [GeneratePrivateKey] is Valid, and
    every successful [Add] leaves the key pair Valid: no successful operation
    takes a key pair to the Zeroed state.  An [Add] that fails leaves the key
    pair unchanged when the gate rejected it, and otherwise leaves in it what
    the engine wrote. *)
Theorem valid_key_pairs_stay_valid (C : CurveEngine) :
  hands_out_valid_secrets C ->
  (forall key, Valid key -> ~ Zeroed key /\ has_nonzero_byte (secret_segment key))
  /\ (forall data w w' key e,
      DeserializePrivateKey C data w = Returns (Some key, e) w' -> Valid key)
  /\ (forall data w w' key e,
      DeserializePrivateKeyFromSlice C data w = Returns (Some key, e) w' -> Valid key)
  /\ (forall fuel w w' key e,
      GeneratePrivateKey C fuel w = Returns (Some key, e) w' -> Valid key)
  /\ (forall key tweak w key',
      length (keypair_data key) = KeyPairSize ->
      returned (Add C key tweak w) = Some (key', None) ->
      isZeroed key = false /\ Valid key')
  /\ (forall key tweak w,
      isZeroed key = true ->
      Add C key tweak w = Returns (key, Some (errors_WithStack errZeroedKeyPair)) w)
  /\ (forall key tweak w,
      isZeroed key = false ->
      fst (secp256k1_keypair_xonly_tweak_add C (keypair_data key) tweak) <> 1 ->
      Add C key tweak w
      = Returns
          ({| keypair_data :=
                copy (keypair_data key)
                     (snd (secp256k1_keypair_xonly_tweak_add C (keypair_data key) tweak)) |},
           Some (errors_New
                   "failed Adding to private key. Tweak is bigger than the order or the complement of the private key"))
          (log_call (call_keypair_xonly_tweak_add (keypair_data key) tweak) w)).
Proof.
  intros Hengine.
  split; [exact Valid_not_Zeroed|].
  split; [intros data w w' key e; now apply DeserializePrivateKey_Valid|].
  split.
  { intros data w w' key e. unfold DeserializePrivateKeyFromSlice.
    destruct (negb _); [discriminate|]. now apply DeserializePrivateKey_Valid. }
  split.
  { intros fuel w w' key e Hrun. unfold GeneratePrivateKey in Hrun.
    destruct (GeneratePrivateKey_loop_success C _ _ _ _ _ _ Hrun) as [data [w0 Hd]].
    now apply (DeserializePrivateKey_Valid C Hengine data w0 w' key e). }
  split.
  { intros key tweak w key' Hlen Hrun. split.
    - now destruct (Add_success C _ _ _ _ Hrun).
    - now apply (Add_Valid C Hengine key key' tweak w). }
  split.
  { intros key tweak w Hz. now rewrite Add_eq, Hz. }
  intros key tweak w Hz Hflag. rewrite Add_eq, Hz.
  apply Z.eqb_neq in Hflag. now rewrite Hflag.
Qed.

Lemma valid_key_pairs_stay_valid_witness :
  Valid key_one /\ (isZeroed key_one = false /\ Valid key_two).
Proof.
  pose proof (valid_key_pairs_stay_valid Libsecp.engine Libsecp_hands_out_valid_secrets)
    as [_ [Hdeserialize [_ [_ [Hadd _]]]]].
  split.
  - apply (Hdeserialize (be_encode 32 1) (world_of (full_read (zeros 32)))
             (log_call (call_keypair_create (be_encode 32 1))
                       (world_of (full_read (zeros 32))))
             key_one None).
    vm_compute. reflexivity.
  - apply (Hadd key_one tweak_one (world_of (full_read (zeros 32))) key_two).
    + reflexivity.
    + vm_compute. reflexivity.
Defined.

(** On the reference engine every [Add] that the engine rejects on a 96-byte
    key pair leaves the Zeroed state behind. *)
Lemma Libsecp_failed_Add_zeroes
  (key key' : SchnorrKeyPair) (tweak : bytes) (w : World) (e : error) :
  length (keypair_data key) = KeyPairSize ->
  isZeroed key = false ->
  returned (Add Libsecp.engine key tweak w) = Some (key', Some e) ->
  Zeroed key' /\ isZeroed key' = true.
Proof.
  intros Hlen Hz. rewrite Add_eq, Hz. cbn [returned].
  cbn [secp256k1_keypair_xonly_tweak_add Libsecp.engine].
  destruct (fst (Libsecp.keypair_xonly_tweak_add (keypair_data key) tweak) =? 1) eqn:Hflag;
    [discriminate|].
  apply Z.eqb_neq in Hflag. rewrite (Libsecp_rejected_tweak_zeroes _ _ Hflag).
  intros H. injection H as Hkey _. subst key'. cbn [keypair_data].
  rewrite copy_full by (now rewrite Hlen, length_zeros).
  split; reflexivity.
Qed.

(** ** The reference engine on known values *)

(** The key pair of the secret 1 has the generator as its public point, with
    even [y]; adding the tweak 1 twice leads to the secrets 2 and 3. *)
Example keys_one_two_three :
  secret_of (keypair_data key_one) = 1
  /\ secret_of (keypair_data key_two) = 2
  /\ secret_of (keypair_data key_three) = 3
  /\ Libsecp.keypair_xonly_pub (keypair_data key_one)
     = (1, be_encode 32
             0x79BE667EF9DCBBAC55A06295CE870B07029BFCDB2DCE28D959F2815B16F81798,
        Some 0).
Proof. vm_compute. repeat split; reflexivity. Qed.

(** [GeneratePrivateKey] on a source that delivers the encoding of 1. *)
Example GeneratePrivateKey_one :
  returned (GeneratePrivateKey Libsecp.engine 1 (world_of (full_read (be_encode 32 1))))
  = Some (Some key_one, None).
Proof. vm_compute. reflexivity. Qed.

(** The first test vector of BIP-340: the secret 3, the all-zero message and
    the all-zero auxiliary randomness. *)
Example bip340_vector_0 :
  returned (schnorrSignInternal Libsecp.engine key_three (zeros 32) (zeros 32)
              (world_of (full_read (zeros 32))))
  = Some (Some {| signature :=
                    be_encode 64
                      0xE907831F80848D1069A5371B402410364BDF1C5F8307B0084C55F1CE2DCA821525F66A4A85EA8B71E482A74F382D2CE5EBEEE8FDB2172F477DF4900D310536C0 |},
          None).
Proof. vm_compute. reflexivity. Qed.

(** The lengths the spec lists for the length rejection. *)
Example wrong_lengths_rejected :
  Forall (fun n =>
            DeserializePrivateKeyFromSlice Libsecp.engine (zeros n)
              (world_of (full_read (zeros 32)))
            = Returns (None, Some (lengthError n)) (world_of (full_read (zeros 32))))
         [0; 1; 31; 33; 64]%nat
  /\ lengthError 33 = errors_New "invalid private key length got 33, expected 32".
Proof. split; [repeat constructor|reflexivity]. Qed.

(** Range rejection: the all-zero secret and the group order itself. *)
Example out_of_range_rejected :
  returned (DeserializePrivateKey Libsecp.engine (zeros 32)
              (world_of (full_read (zeros 32))))
  = Some (None, Some (errors_New
            "invalid SchnorrKeyPair (zero or bigger than the group order)"))
  /\ returned (DeserializePrivateKey Libsecp.engine (be_encode 32 groupOrder)
                 (world_of (full_read (zeros 32))))
     = Some (None, Some (errors_New
               "invalid SchnorrKeyPair (zero or bigger than the group order)")).
Proof. split; vm_compute; reflexivity. Qed.

(** [GeneratePrivateKey] draws again after a secret the engine refuses: two
    reads, two engine calls; with fuel for one round only, the model stops
    before the second. *)
Example GeneratePrivateKey_redraws :
  GeneratePrivateKey Libsecp.engine 2 zero_then_one
  = Returns (Some key_one, None)
      {| rand_source := rand_source zero_then_one;
         rand_reads := 2;
         engine_calls := [call_keypair_create (be_encode 32 1);
                          call_keypair_create (zeros 32)] |}
  /\ GeneratePrivateKey Libsecp.engine 1 zero_then_one = OutOfFuel.
Proof. split; vm_compute; reflexivity. Qed.

(** The hexadecimal form of the key pair of the secret 1. *)
Example String_key_one :
  SchnorrKeyPair_String key_one
  = "0000000000000000000000000000000000000000000000000000000000000001".
Proof. vm_compute. reflexivity. Qed.

(** * Further properties of the code *)

(** ** Serialization and the hexadecimal form *)

(** X1: whatever the 96-byte record of a key pair holds, the loop of
    [SerializePrivateKey] returns exactly 32 bytes, the bytes [data[0:32]] of
    the record; the public part of the record has no influence on them. *)
Theorem SerializePrivateKey_is_the_secret_segment (key key' : SchnorrKeyPair) :
  length (keypair_data key) = KeyPairSize ->
  length (keypair_data key') = KeyPairSize ->
  SerializePrivateKey key = secret_segment key
  /\ length (SerializePrivateKey key) = 32%nat
  /\ (secret_segment key = secret_segment key' ->
      SerializePrivateKey key = SerializePrivateKey key').
Proof.
  intros Hlen Hlen'.
  assert (H : forall k, length (keypair_data k) = KeyPairSize ->
                        SerializePrivateKey k = secret_segment k).
  { intros k Hk. unfold secret_segment. rewrite slice_firstn.
    apply SerializePrivateKey_secret. rewrite Hk. unfold KeyPairSize. lia. }
  split; [now apply H|]. split.
  - rewrite SerializePrivateKey_secret by (rewrite Hlen; unfold KeyPairSize; lia).
    rewrite length_firstn, Hlen. reflexivity.
  - intros Hsame. now rewrite !H, Hsame.
Qed.

Lemma SerializePrivateKey_is_the_secret_segment_witness :
  SerializePrivateKey key_one = secret_segment key_one
  /\ length (SerializePrivateKey key_one) = 32%nat
  /\ (secret_segment key_one = secret_segment half_zeroed ->
      SerializePrivateKey key_one = SerializePrivateKey half_zeroed).
Proof.
  apply (SerializePrivateKey_is_the_secret_segment key_one half_zeroed);
    reflexivity.
Defined.

Lemma hex_digit_in_alphabet (d : Z) : In (hex_digit d) hex_alphabet.
Proof.
  unfold hex_digit. fold hex_alphabet.
  destruct (Nat.lt_ge_cases (Z.to_nat d) (length hex_alphabet)) as [Hlt|Hge].
  - now apply nth_In.
  - rewrite nth_overflow by assumption. simpl. auto.
Qed.

Lemma hex_digit_inj (d1 d2 : Z) :
  0 <= d1 < 16 -> 0 <= d2 < 16 -> hex_digit d1 = hex_digit d2 -> d1 = d2.
Proof.
  intros H1 H2.
  assert (E1 : d1 = 0 \/ d1 = 1 \/ d1 = 2 \/ d1 = 3 \/ d1 = 4 \/ d1 = 5 \/ d1 = 6
               \/ d1 = 7 \/ d1 = 8 \/ d1 = 9 \/ d1 = 10 \/ d1 = 11 \/ d1 = 12
               \/ d1 = 13 \/ d1 = 14 \/ d1 = 15) by lia.
  assert (E2 : d2 = 0 \/ d2 = 1 \/ d2 = 2 \/ d2 = 3 \/ d2 = 4 \/ d2 = 5 \/ d2 = 6
               \/ d2 = 7 \/ d2 = 8 \/ d2 = 9 \/ d2 = 10 \/ d2 = 11 \/ d2 = 12
               \/ d2 = 13 \/ d2 = 14 \/ d2 = 15) by lia.
  clear H1 H2.
  repeat (destruct E1 as [E1|E1]); subst d1;
    repeat (destruct E2 as [E2|E2]); subst d2;
    intros H; first [reflexivity | vm_compute in H; discriminate H].
Qed.

Lemma nibbles (u : Z) :
  0 <= u < 2 ^ 8 ->
  0 <= Z.shiftr u 4 < 16 /\ 0 <= Z.land u 15 < 16
  /\ u = 16 * Z.shiftr u 4 + Z.land u 15.
Proof.
  intros Hu. rewrite Z.shiftr_div_pow2 by lia.
  change 15 with (Z.ones 4). rewrite Z.land_ones by lia.
  change (2 ^ 4) with 16.
  pose proof (Z.mod_pos_bound u 16). pose proof (Z.div_mod u 16).
  assert (0 <= u / 16 < 16)
    by (split; [apply Z.div_pos; lia|apply Z.div_lt_upper_bound; lia]).
  lia.
Qed.

Lemma hex_EncodeToString_inj (a b : bytes) :
  hex_EncodeToString a = hex_EncodeToString b -> a = b.
Proof.
  revert b. induction a as [|x a IH]; intros [|y b] H; try discriminate H;
    [reflexivity|].
  cbn [hex_EncodeToString fold_right] in H. injection H as Hhi Hlo Hrest.
  destruct (nibbles _ (byte.unsigned_range x)) as [Hx1 [Hx2 Hx]].
  destruct (nibbles _ (byte.unsigned_range y)) as [Hy1 [Hy2 Hy]].
  apply hex_digit_inj in Hhi; [|assumption..].
  apply hex_digit_inj in Hlo; [|assumption..].
  f_equal; [apply byte.unsigned_inj; lia|now apply IH].
Qed.

Lemma hex_EncodeToString_length (a : bytes) :
  String.length (hex_EncodeToString a) = (2 * length a)%nat.
Proof.
  induction a as [|x a IH]; [reflexivity|].
  cbn [hex_EncodeToString fold_right String.length length].
  fold (hex_EncodeToString a). rewrite IH. lia.
Qed.

Lemma hex_EncodeToString_alphabet (a : bytes) :
  Forall (fun c => In c hex_alphabet) (list_ascii_of_string (hex_EncodeToString a)).
Proof.
  induction a as [|x a IH]; [constructor|].
  cbn [hex_EncodeToString fold_right list_ascii_of_string].
  constructor; [apply hex_digit_in_alphabet|].
  constructor; [apply hex_digit_in_alphabet|exact IH].
Qed.

(** X2: the [String] of a key pair is the hexadecimal form of its 32 secret
    bytes and of nothing else: it has 64 characters, all of them among
    [0-9a-f], and two key pairs have the same [String] exactly when
    [SerializePrivateKey] gives the same bytes for them. *)
Theorem String_is_the_secret_in_hex (key key' : SchnorrKeyPair) :
  length (keypair_data key) = KeyPairSize ->
  String.length (SchnorrKeyPair_String key) = 64%nat
  /\ Forall (fun c => In c hex_alphabet)
            (list_ascii_of_string (SchnorrKeyPair_String key))
  /\ SchnorrKeyPair_String key = SerializedPrivateKey_String (secret_segment key)
  /\ (SchnorrKeyPair_String key = SchnorrKeyPair_String key'
      <-> SerializePrivateKey key = SerializePrivateKey key').
Proof.
  intros Hlen. unfold SchnorrKeyPair_String, SerializedPrivateKey_String.
  assert (Hser : SerializePrivateKey key = secret_segment key).
  { unfold secret_segment. rewrite slice_firstn.
    apply SerializePrivateKey_secret. rewrite Hlen. unfold KeyPairSize. lia. }
  split.
  { rewrite hex_EncodeToString_length, Hser. unfold secret_segment, slice.
    rewrite length_firstn, length_skipn, Hlen. reflexivity. }
  split; [apply hex_EncodeToString_alphabet|].
  split; [now rewrite Hser|].
  split; [apply hex_EncodeToString_inj|congruence].
Qed.

Lemma String_is_the_secret_in_hex_witness :
  String.length (SchnorrKeyPair_String key_two) = 64%nat.
Proof.
  apply (String_is_the_secret_in_hex key_two key_one). reflexivity.
Defined.

(** ** The gate, and what passes it *)

(** What [schnorrPublicKeyInternal] does, by the gate and the engine's
    answer. *)
Lemma schnorrPublicKeyInternal_eq (C : CurveEngine) (key : SchnorrKeyPair) (w : World) :
  schnorrPublicKeyInternal C key w
  = if isZeroed key
    then Returns (None, false, Some (errors_WithStack errZeroedKeyPair)) w
    else
      let w' := log_call (call_keypair_xonly_pub (keypair_data key)) w in
      let r := fst (fst (secp256k1_keypair_xonly_pub C (keypair_data key))) in
      let out := snd (fst (secp256k1_keypair_xonly_pub C (keypair_data key))) in
      let parity :=
        match snd (secp256k1_keypair_xonly_pub C (keypair_data key)) with
        | Some q => q
        | None => 42
        end in
      let pk := {| pubkey := copy (zeros PublicKeySize) out |} in
      if r =? 1
      then if parity =? 0 then Returns (Some pk, false, None) w'
           else if parity =? 1 then Returns (Some pk, true, None) w'
           else Panics (parityPanic parity) w'
      else Returns (None, false, Some (errors_New "the keypair contains invalid data")) w'.
Proof.
  unfold schnorrPublicKeyInternal. destruct (isZeroed key); [reflexivity|].
  unfold bind at 1. unfold C_secp256k1_keypair_xonly_pub.
  destruct (secp256k1_keypair_xonly_pub C (keypair_data key)) as [[r out] par].
  cbv beta iota zeta. cbn [fst snd].
  destruct (r =? 1); [|reflexivity]. cbn [negb].
  unfold bind. rewrite parityBitToBool_eq.
  destruct (_ =? 0); [reflexivity|]. now destruct (_ =? 1).
Qed.

(** X3: the gate of [Add], [schnorrPublicKeyInternal], [SchnorrPublicKey] and
    [schnorrSignInternal] is closed for every 96-byte record with at least one
    all-zero segment, not only for the all-zero record: each of the calls
    returns the zeroed-key error, [Add] leaves the key pair as it was, and the
    world (engine calls and randomness) is untouched. *)
Theorem some_zero_segment_is_gated
  (C : CurveEngine) (key : SchnorrKeyPair) (tweak hash aux : bytes) (w : World) :
  length (keypair_data key) = KeyPairSize ->
  all_zero (secret_segment key)
  \/ all_zero (public_x_segment key)
  \/ all_zero (public_y_segment key) ->
  Add C key tweak w = Returns (key, Some (errors_WithStack errZeroedKeyPair)) w
  /\ schnorrPublicKeyInternal C key w
     = Returns (None, false, Some (errors_WithStack errZeroedKeyPair)) w
  /\ SchnorrPublicKey C key w
     = Returns (None, Some (errors_WithStack errZeroedKeyPair)) w
  /\ schnorrSignInternal C key hash aux w
     = Returns (None, Some (errors_WithStack errZeroedKeyPair)) w.
Proof.
  intros Hlen Hzero.
  assert (Hz : isZeroed key = true).
  { unfold isZeroed. rewrite (skipn_64_segment key Hlen).
    fold (secret_segment key) (public_x_segment key).
    rewrite !orb_true_iff, !isZeroed_slice_all_zero. tauto. }
  unfold Add, SchnorrPublicKey, schnorrPublicKeyInternal, schnorrSignInternal.
  rewrite Hz. repeat split; reflexivity.
Qed.

Lemma some_zero_segment_is_gated_witness :
  SchnorrPublicKey Libsecp.engine half_zeroed (world_of (full_read (zeros 32)))
  = Returns (None, Some (errors_WithStack errZeroedKeyPair))
            (world_of (full_read (zeros 32))).
Proof.
  apply (some_zero_segment_is_gated Libsecp.engine half_zeroed (zeros 32) (zeros 32)
           (zeros 32) (world_of (full_read (zeros 32)))).
  - reflexivity.
  - left. apply isZeroed_slice_all_zero. reflexivity.
Defined.

(** X4: on a key pair that passes the gate, [Add], [schnorrPublicKeyInternal]
    and [schnorrSignInternal] each make exactly one engine call, with exactly
    the record of the key pair and the buffers they were given, and read no
    randomness; the first and the last return, the second returns or
    panics. *)
Theorem one_engine_call_past_the_gate
  (C : CurveEngine) (key : SchnorrKeyPair) (tweak hash aux : bytes) (w : World) :
  isZeroed key = false ->
  (exists r,
      Add C key tweak w
      = Returns r (log_call (call_keypair_xonly_tweak_add (keypair_data key) tweak) w))
  /\ (exists r,
      schnorrSignInternal C key hash aux w
      = Returns r (log_call (call_schnorrsig_sign hash (keypair_data key) aux) w))
  /\ ((exists r,
         schnorrPublicKeyInternal C key w
         = Returns r (log_call (call_keypair_xonly_pub (keypair_data key)) w))
      \/ (exists msg,
         schnorrPublicKeyInternal C key w
         = Panics msg (log_call (call_keypair_xonly_pub (keypair_data key)) w))).
Proof.
  intros Hvalid.
  split; [rewrite Add_eq, Hvalid; eauto|].
  split; [rewrite schnorrSignInternal_eq, Hvalid; eauto|].
  rewrite schnorrPublicKeyInternal_eq, Hvalid. cbv zeta.
  destruct (_ =? 1); [|eauto].
  destruct (_ =? 0); [eauto|]. destruct (_ =? 1); eauto.
Qed.

Lemma one_engine_call_past_the_gate_witness :
  exists r,
    Add Libsecp.engine key_one tweak_one (world_of (full_read (zeros 32)))
    = Returns r (log_call (call_keypair_xonly_tweak_add (keypair_data key_one) tweak_one)
                          (world_of (full_read (zeros 32)))).
Proof.
  apply (one_engine_call_past_the_gate Libsecp.engine key_one tweak_one (zeros 32)
           (zeros 32) (world_of (full_read (zeros 32)))).
  vm_compute. reflexivity.
Defined.

(** X5: [DeserializePrivateKeyFromSlice] hands a slice of 32 bytes to the
    engine unchanged: it then is [DeserializePrivateKey] on those bytes, makes
    the one call [secp256k1_keypair_create] on them and reads no randomness;
    for any other length it makes no call at all. *)
Theorem FromSlice_passes_the_bytes_on
  (C : CurveEngine) (data : bytes) (w : World) :
  exists r,
    DeserializePrivateKeyFromSlice C data w
    = Returns r (if (length data =? 32)%nat
                 then log_call (call_keypair_create data) w
                 else w)
    /\ (if (length data =? 32)%nat
        then DeserializePrivateKeyFromSlice C data w = DeserializePrivateKey C data w
        else r = (None, Some (lengthError (length data)))).
Proof.
  destruct (length data =? 32)%nat eqn:Hlen.
  - apply Nat.eqb_eq in Hlen.
    rewrite (DeserializePrivateKeyFromSlice_32 C data w Hlen).
    rewrite DeserializePrivateKey_eq.
    destruct (fst (secp256k1_keypair_create C data) =? 1); eexists; split; reflexivity.
  - apply Nat.eqb_neq in Hlen. unfold DeserializePrivateKeyFromSlice.
    replace (Z.of_nat (length data) =? SerializedPrivateKeySize) with false
      by (symmetry; apply Z.eqb_neq; unfold SerializedPrivateKeySize; lia).
    eexists. split; reflexivity.
Qed.

(** X6: when the engine reports a failure for the public key of a key pair
    that passed the gate, [schnorrPublicKeyInternal] and [SchnorrPublicKey]
    return the error "the keypair contains invalid data" with a nil public
    key; the parity is not looked at, so that no value of it, written or not,
    leads to a panic. *)
Theorem failed_public_key_is_an_error
  (C : CurveEngine) (key : SchnorrKeyPair) (w : World)
  (r : Z) (out : bytes) (par : option Z) :
  isZeroed key = false ->
  secp256k1_keypair_xonly_pub C (keypair_data key) = (r, out, par) ->
  r <> 1 ->
  schnorrPublicKeyInternal C key w
  = Returns (None, false, Some (errors_New "the keypair contains invalid data"))
            (log_call (call_keypair_xonly_pub (keypair_data key)) w)
  /\ SchnorrPublicKey C key w
     = Returns (None, Some (errors_New "the keypair contains invalid data"))
               (log_call (call_keypair_xonly_pub (keypair_data key)) w).
Proof.
  intros Hvalid Hpub Hr. apply Z.eqb_neq in Hr.
  assert (H : schnorrPublicKeyInternal C key w
              = Returns (None, false, Some (errors_New "the keypair contains invalid data"))
                        (log_call (call_keypair_xonly_pub (keypair_data key)) w)).
  { rewrite schnorrPublicKeyInternal_eq, Hvalid, Hpub. cbv zeta. cbn [fst snd].
    now rewrite Hr. }
  split; [exact H|]. unfold SchnorrPublicKey, bind. now rewrite H.
Qed.

Lemma failed_public_key_is_an_error_witness :
  SchnorrPublicKey (failing_pub Libsecp.engine (Some 7)) key_one
    (world_of (full_read (zeros 32)))
  = Returns (None, Some (errors_New "the keypair contains invalid data"))
            (log_call (call_keypair_xonly_pub (keypair_data key_one))
                      (world_of (full_read (zeros 32)))).
Proof.
  apply (failed_public_key_is_an_error (failing_pub Libsecp.engine (Some 7)) key_one
           (world_of (full_read (zeros 32))) 0 (zeros PublicKeySize) (Some 7)).
  - vm_compute. reflexivity.
  - reflexivity.
  - discriminate.
Defined.

(** X7: [schnorrSignInternal] always returns, and returns either a signature
    with a nil error or a nil signature with an error; [schnorrPublicKeyInternal]
    and [SchnorrPublicKey] do the same for the public key unless they panic.
    None of them returns nil with nil, or a value together with an error. *)
Theorem sign_and_public_key_return_value_or_error
  (C : CurveEngine) (key : SchnorrKeyPair) (hash aux : bytes) (w : World) :
  (exists w',
      (exists sig, schnorrSignInternal C key hash aux w = Returns (Some sig, None) w')
      \/ (exists e, schnorrSignInternal C key hash aux w = Returns (None, Some e) w'))
  /\ (exists w',
      (exists pk odd, schnorrPublicKeyInternal C key w = Returns (Some pk, odd, None) w')
      \/ (exists e, schnorrPublicKeyInternal C key w = Returns (None, false, Some e) w')
      \/ (exists msg, schnorrPublicKeyInternal C key w = Panics msg w'))
  /\ (exists w',
      (exists pk, SchnorrPublicKey C key w = Returns (Some pk, None) w')
      \/ (exists e, SchnorrPublicKey C key w = Returns (None, Some e) w')
      \/ (exists msg, SchnorrPublicKey C key w = Panics msg w')).
Proof.
  split.
  { rewrite schnorrSignInternal_eq. destruct (isZeroed key); [eauto|].
    destruct (fst _ =? 1); eauto. }
  assert (H : exists w',
      (exists pk odd, schnorrPublicKeyInternal C key w = Returns (Some pk, odd, None) w')
      \/ (exists e, schnorrPublicKeyInternal C key w = Returns (None, false, Some e) w')
      \/ (exists msg, schnorrPublicKeyInternal C key w = Panics msg w')).
  { rewrite schnorrPublicKeyInternal_eq. destruct (isZeroed key); [eauto|].
    cbv zeta. destruct (_ =? 1); [|eauto].
    destruct (_ =? 0); [eauto 6|]. destruct (_ =? 1); eauto 6. }
  split; [exact H|].
  destruct H as [w' [[pk [odd H]]|[[e H]|[msg H]]]];
    exists w'; unfold SchnorrPublicKey, bind; rewrite H; eauto.
Qed.

(** ** The randomness source *)

Lemma read_failed_false (reply : RandReply) (len : nat) :
  read_failed reply len = false ->
  rr_err reply = None /\ (len <= length (rr_data reply))%nat.
Proof.
  unfold read_failed. intros H. apply orb_false_iff in H. destruct H as [Herr Hn].
  split; [now destruct (rr_err reply)|].
  apply negb_false_iff, Z.eqb_eq in Hn. lia.
Qed.

(** A write that fills the array leaves the first bytes written and nothing
    of what the array held. *)
Lemma copy_prefix (dst src : bytes) :
  (length dst <= length src)%nat -> copy dst src = firstn (length dst) src.
Proof.
  intros Hlen. unfold copy, List.upds. cbn [firstn app].
  rewrite Nat.sub_0_r, Nat.add_0_r, skipn_all2 by lia. apply app_nil_r.
Qed.

(** X8: [SchnorrSign] returns a nil signature together with a nil error in
    one case only: when the randomness source writes fewer than 32 bytes and
    reports no error. *)
Theorem SchnorrSign_nil_nil_iff_short_read
  (C : CurveEngine) (key : SchnorrKeyPair) (hash : bytes) (w : World) :
  returned (SchnorrSign C key hash w) = Some (None, None)
  <-> rr_err (rand_source w (rand_reads w)) = None
      /\ (length (rr_data (rand_source w (rand_reads w))) < 32)%nat.
Proof.
  split.
  - destruct (read_failed (rand_source w (rand_reads w)) 32) eqn:Hread.
    + rewrite SchnorrSign_read_failed by assumption. cbn [returned].
      intros H. injection H as Herr. split; [exact Herr|].
      unfold read_failed in Hread. rewrite Herr in Hread. cbn [orb] in Hread.
      apply negb_true_iff, Z.eqb_neq in Hread. lia.
    + rewrite SchnorrSign_read_full, schnorrSignInternal_eq by assumption.
      destruct (isZeroed key); [discriminate|].
      cbn [returned]. destruct (fst _ =? 1); discriminate.
  - intros [Herr Hshort].
    rewrite SchnorrSign_read_failed by now apply read_failed_short.
    now rewrite Herr.
Qed.

(** X9: an error of the randomness source is returned as it is, with a nil
    key pair by [GeneratePrivateKey] and a nil signature by [SchnorrSign],
    after that one read and without any engine call or second read. *)
Theorem source_error_is_returned
  (C : CurveEngine) (fuel : nat) (key : SchnorrKeyPair) (hash : bytes)
  (w : World) (e : error) :
  rr_err (rand_source w (rand_reads w)) = Some e ->
  GeneratePrivateKey C (S fuel) w = Returns (None, Some e) (after_read w)
  /\ SchnorrSign C key hash w = Returns (None, Some e) (after_read w)
  /\ engine_calls (after_read w) = engine_calls w
  /\ rand_reads (after_read w) = S (rand_reads w).
Proof.
  intros Herr.
  assert (Hfail : read_failed (rand_source w (rand_reads w)) 32 = true)
    by (unfold read_failed; now rewrite Herr).
  rewrite GeneratePrivateKey_read_failed, SchnorrSign_read_failed, Herr by assumption.
  repeat split; reflexivity.
Qed.

Lemma source_error_is_returned_witness :
  SchnorrSign Libsecp.engine key_one (zeros 32) (world_of failed_read)
  = Returns (None, Some (errors_New "unexpected EOF")) (after_read (world_of failed_read)).
Proof.
  apply (source_error_is_returned Libsecp.engine 0 key_one (zeros 32)
           (world_of failed_read) (errors_New "unexpected EOF")).
  reflexivity.
Defined.

(** X10: when the randomness source delivers, [SchnorrSign] signs with the
    bytes of this very draw: it is [schnorrSignInternal] on the first 32 bytes
    the source wrote, and on a key pair that passes the gate the one engine
    call it makes is the signing call on the hash, the record and those 32
    bytes. *)
Theorem SchnorrSign_signs_with_the_bytes_drawn
  (C : CurveEngine) (key : SchnorrKeyPair) (hash : bytes) (w : World) :
  rr_err (rand_source w (rand_reads w)) = None ->
  (32 <= length (rr_data (rand_source w (rand_reads w))))%nat ->
  isZeroed key = false ->
  let aux := firstn 32 (rr_data (rand_source w (rand_reads w))) in
  SchnorrSign C key hash w = schnorrSignInternal C key hash aux (after_read w)
  /\ exists r,
       SchnorrSign C key hash w
       = Returns r (log_call (call_schnorrsig_sign hash (keypair_data key) aux)
                             (after_read w)).
Proof.
  intros Herr Hlen Hvalid aux.
  assert (H : SchnorrSign C key hash w = schnorrSignInternal C key hash aux (after_read w)).
  { rewrite SchnorrSign_read_full by now apply read_failed_full.
    now rewrite copy_prefix by (rewrite length_zeros; exact Hlen). }
  split; [exact H|]. rewrite H, schnorrSignInternal_eq, Hvalid. eauto.
Qed.

Lemma SchnorrSign_signs_with_the_bytes_drawn_witness :
  SchnorrSign Libsecp.engine key_one (zeros 32) (world_of (full_read tweak_one))
  = schnorrSignInternal Libsecp.engine key_one (zeros 32) tweak_one
      (after_read (world_of (full_read tweak_one))).
Proof.
  apply (SchnorrSign_signs_with_the_bytes_drawn Libsecp.engine key_one (zeros 32)
           (world_of (full_read tweak_one))).
  - reflexivity.
  - vm_compute. lia.
  - vm_compute. reflexivity.
Defined.

(** X11: every call of [SchnorrSign] returns (it never panics), consumes
    exactly one reply of the randomness source, so that the next call draws
    the next reply, and makes at most one engine call, a signing call on the
    given hash and the record of the key pair. *)
Theorem SchnorrSign_draws_once
  (C : CurveEngine) (key : SchnorrKeyPair) (hash : bytes) (w : World) :
  exists r w',
    SchnorrSign C key hash w = Returns r w'
    /\ rand_source w' = rand_source w
    /\ rand_reads w' = S (rand_reads w)
    /\ (engine_calls w' = engine_calls w
        \/ exists aux,
             engine_calls w'
             = call_schnorrsig_sign hash (keypair_data key) aux :: engine_calls w).
Proof.
  destruct (read_failed (rand_source w (rand_reads w)) 32) eqn:Hread.
  - rewrite SchnorrSign_read_failed by assumption.
    eexists _, _. split; [reflexivity|]. repeat split. now left.
  - rewrite SchnorrSign_read_full, schnorrSignInternal_eq by assumption.
    destruct (isZeroed key); eexists _, _; (split; [reflexivity|]); repeat split.
    + now left.
    + right. eexists. reflexivity.
Qed.

(** ** The loop of [GeneratePrivateKey] *)

Section GenerateLoop.

Variable C : CurveEngine.

(** One round of the loop, on a buffer of 32 bytes. *)
Lemma GeneratePrivateKey_loop_round (fuel : nat) (rawKey : bytes) (w : World) :
  length rawKey = 32%nat ->
  GeneratePrivateKey_loop C (S fuel) rawKey w
  = let reply := rand_source w (rand_reads w) in
    let drawn := firstn 32 (rr_data reply) in
    let w1 := log_call (call_keypair_create drawn) (after_read w) in
    if read_failed reply 32
    then Returns (None, rr_err reply) (after_read w)
    else if fst (secp256k1_keypair_create C drawn) =? 1
         then Returns (Some {| keypair_data :=
                                 copy (zeros KeyPairSize)
                                      (snd (secp256k1_keypair_create C drawn)) |},
                       None) w1
         else GeneratePrivateKey_loop C fuel drawn w1.
Proof.
  intros Hlen. cbn [GeneratePrivateKey_loop]. unfold bind at 1. unfold rand_Read.
  rewrite length_copy, Hlen. fold (after_read w).
  fold (read_failed (rand_source w (rand_reads w)) 32). cbv zeta.
  destruct (read_failed (rand_source w (rand_reads w)) 32) eqn:Hread; [reflexivity|].
  destruct (read_failed_false _ _ Hread) as [_ Hfull].
  rewrite copy_prefix by (rewrite Hlen; exact Hfull). rewrite Hlen.
  unfold bind. rewrite DeserializePrivateKey_eq.
  now destruct (fst _ =? 1).
Qed.

Lemma length_firstn_32 (data : bytes) :
  (32 <= length data)%nat -> length (firstn 32 data) = 32%nat.
Proof. intros H. rewrite length_firstn. lia. Qed.


(** After [k] rounds in which the engine refused what was drawn, the loop
    returns at the next draw if that one fails or is accepted. *)
Lemma GeneratePrivateKey_loop_decides (k fuel : nat) :
  forall (rawKey : bytes) (w : World),
    length rawKey = 32%nat ->
    (forall i, (i < k)%nat -> rejected_round C (rand_source w (rand_reads w + i))) ->
    let reply := rand_source w (rand_reads w + k) in
    read_failed reply 32 = true \/ accepted_round C reply ->
    exists w',
      GeneratePrivateKey_loop C (S k + fuel) rawKey w
      = Returns (if read_failed reply 32
                 then (None, rr_err reply)
                 else (Some {| keypair_data :=
                                 copy (zeros KeyPairSize)
                                      (snd (secp256k1_keypair_create C
                                              (firstn 32 (rr_data reply)))) |},
                       None)) w'
      /\ rand_source w' = rand_source w
      /\ rand_reads w' = (rand_reads w + S k)%nat
      /\ length (engine_calls w')
         = (length (engine_calls w) + k + if read_failed reply 32 then 0 else 1)%nat.
Proof.
  induction k as [|k IH]; intros rawKey w Hlen Hrej reply Hlast.
  - subst reply. rewrite Nat.add_0_r in *. cbn [Nat.add].
    rewrite GeneratePrivateKey_loop_round by assumption. cbv zeta.
    destruct Hlast as [Hfail|[Hfull Hacc]].
    + rewrite Hfail. eexists. split; [reflexivity|]. cbn. repeat split; lia.
    + rewrite Hfull, Hacc. eexists. split; [reflexivity|]. cbn. repeat split; lia.
  - cbn [Nat.add]. rewrite GeneratePrivateKey_loop_round by assumption. cbv zeta.
    destruct (Hrej 0%nat ltac:(lia)) as [Hfull Hno]. rewrite Nat.add_0_r in Hfull, Hno.
    rewrite Hfull. apply Z.eqb_neq in Hno. rewrite Hno.
    set (w1 := log_call _ (after_read w)).
    destruct (IH (firstn 32 (rr_data (rand_source w (rand_reads w)))) w1)
      as [w' [Hrun [Hsrc [Hreads Hcalls]]]].
    + apply length_firstn_32. now apply read_failed_false in Hfull.
    + intros i Hi. subst w1. cbn [log_call after_read rand_source rand_reads].
      replace (S (rand_reads w) + i)%nat with (rand_reads w + S i)%nat by lia.
      apply Hrej. lia.
    + subst w1 reply. cbn [log_call after_read rand_source rand_reads].
      replace (S (rand_reads w) + k)%nat with (rand_reads w + S k)%nat by lia.
      exact Hlast.
    + subst w1 reply. cbn [log_call after_read rand_source rand_reads engine_calls length] in *.
      replace (S (rand_reads w) + k)%nat with (rand_reads w + S k)%nat in * by lia.
      exists w'. split; [exact Hrun|]. repeat split; [assumption|lia|lia].
Qed.

(** Whatever the loop returns, it returns at a draw that failed or that the
    engine accepted, after calls of [secp256k1_keypair_create] only, one for
    each draw that did not fail. *)
Lemma GeneratePrivateKey_loop_returns (fuel : nat) :
  forall (rawKey : bytes) (w w' : World) (v : option SchnorrKeyPair * option error),
    length rawKey = 32%nat ->
    GeneratePrivateKey_loop C fuel rawKey w = Returns v w' ->
    rand_source w' = rand_source w
    /\ (rand_reads w < rand_reads w')%nat
    /\ (let last := rand_source w (pred (rand_reads w')) in
        (read_failed last 32 = true /\ v = (None, rr_err last))
        \/ (accepted_round C last
            /\ v = (Some {| keypair_data :=
                              copy (zeros KeyPairSize)
                                   (snd (secp256k1_keypair_create C
                                           (firstn 32 (rr_data last)))) |},
                    None)))
    /\ exists calls,
         engine_calls w' = calls ++ engine_calls w
         /\ Forall is_create_call calls
         /\ rand_reads w'
            = (rand_reads w + length calls
               + match fst v with Some _ => 0 | None => 1 end)%nat.
Proof.
  induction fuel as [|fuel IH]; intros rawKey w w' v Hlen Hrun; [discriminate|].
  rewrite GeneratePrivateKey_loop_round in Hrun by assumption. cbv zeta in Hrun.
  destruct (read_failed (rand_source w (rand_reads w)) 32) eqn:Hread.
  - inversion Hrun. subst. cbn [after_read rand_source rand_reads engine_calls pred].
    split; [reflexivity|]. split; [lia|]. split; [left; auto|].
    exists []. cbn. repeat split; [constructor|lia].
  - destruct (fst (secp256k1_keypair_create C _) =? 1) eqn:Hacc.
    + inversion Hrun. subst.
      cbn [log_call after_read rand_source rand_reads engine_calls pred].
      split; [reflexivity|]. split; [lia|]. apply Z.eqb_eq in Hacc.
      split; [right; split; [split; assumption|reflexivity]|].
      eexists [_]. cbn. repeat split; [repeat constructor|lia].
    + apply IH in Hrun;
        [|apply length_firstn_32; now apply read_failed_false in Hread].
      cbn [log_call after_read rand_source rand_reads engine_calls] in Hrun.
      destruct Hrun as [Hsrc [Hlt [Hlast [calls [Hcalls [Hall Hcount]]]]]].
      split; [exact Hsrc|]. split; [lia|]. split; [exact Hlast|].
      exists (calls ++ [call_keypair_create
                          (firstn 32 (rr_data (rand_source w (rand_reads w))))]).
      rewrite <- app_assoc. split; [exact Hcalls|]. split.
      * apply Forall_app. split; [exact Hall|repeat constructor].
      * rewrite length_app. cbn [length]. lia.
Qed.

End GenerateLoop.

(** X12: [GeneratePrivateKey] returns as soon as a draw is decisive: if the
    engine refuses the first [k] draws, each delivered in full, and the next
    draw either fails or is accepted by the engine, then [k + 1] rounds are
    enough.  The call returns the error of the failed read with a nil key
    pair, or the key pair the engine built from the accepted bytes with a nil
    error, after [k + 1] reads and [k] engine calls (one more for the accepted
    draw). *)
Theorem GeneratePrivateKey_returns_at_the_decisive_draw
  (C : CurveEngine) (k fuel : nat) (w : World) :
  (forall i, (i < k)%nat -> rejected_round C (rand_source w (rand_reads w + i))) ->
  let reply := rand_source w (rand_reads w + k) in
  read_failed reply 32 = true \/ accepted_round C reply ->
  exists w',
    GeneratePrivateKey C (S k + fuel) w
    = Returns (if read_failed reply 32
               then (None, rr_err reply)
               else (Some {| keypair_data :=
                               copy (zeros KeyPairSize)
                                    (snd (secp256k1_keypair_create C
                                            (firstn 32 (rr_data reply)))) |},
                     None)) w'
    /\ rand_source w' = rand_source w
    /\ rand_reads w' = (rand_reads w + S k)%nat
    /\ length (engine_calls w')
       = (length (engine_calls w) + k + if read_failed reply 32 then 0 else 1)%nat.
Proof.
  intros Hrej reply Hlast. unfold GeneratePrivateKey.
  now apply GeneratePrivateKey_loop_decides.
Qed.

Lemma GeneratePrivateKey_returns_at_the_decisive_draw_witness :
  exists w',
    GeneratePrivateKey Libsecp.engine 2 zero_then_one
    = Returns (if read_failed (rand_source zero_then_one 1) 32
               then (None, rr_err (rand_source zero_then_one 1))
               else (Some {| keypair_data :=
                               copy (zeros KeyPairSize)
                                    (snd (secp256k1_keypair_create Libsecp.engine
                                            (firstn 32 (rr_data (rand_source zero_then_one 1))))) |},
                     None)) w'
    /\ rand_source w' = rand_source zero_then_one
    /\ rand_reads w' = 2%nat
    /\ length (engine_calls w') = 2%nat.
Proof.
  apply (GeneratePrivateKey_returns_at_the_decisive_draw Libsecp.engine 1 0 zero_then_one).
  - intros i Hi. assert (i = 0)%nat by lia. subst i.
    split; [reflexivity|vm_compute; discriminate].
  - right. split; [reflexivity|vm_compute; reflexivity].
Defined.

(** X13: whatever [GeneratePrivateKey] returns, it returns at a draw that
    failed, with a nil key pair and the error of that read (nil for a short
    read without error), or at a draw the engine accepted, with the key pair
    built from those bytes and a nil error.  An engine refusal is never
    returned as an error.  Up to there the call has made calls of
    [secp256k1_keypair_create] only, one for each read that delivered, and the
    randomness source itself is as before. *)
Theorem GeneratePrivateKey_returns_only_at_a_decisive_draw
  (C : CurveEngine) (fuel : nat) (w w' : World)
  (v : option SchnorrKeyPair * option error) :
  GeneratePrivateKey C fuel w = Returns v w' ->
  rand_source w' = rand_source w
  /\ (rand_reads w < rand_reads w')%nat
  /\ (let last := rand_source w (pred (rand_reads w')) in
      (read_failed last 32 = true /\ v = (None, rr_err last))
      \/ (accepted_round C last
          /\ v = (Some {| keypair_data :=
                            copy (zeros KeyPairSize)
                                 (snd (secp256k1_keypair_create C
                                         (firstn 32 (rr_data last)))) |},
                  None)))
  /\ exists calls,
       engine_calls w' = calls ++ engine_calls w
       /\ Forall is_create_call calls
       /\ rand_reads w'
          = (rand_reads w + length calls
             + match fst v with Some _ => 0 | None => 1 end)%nat.
Proof.
  unfold GeneratePrivateKey. apply GeneratePrivateKey_loop_returns. reflexivity.
Qed.

Lemma GeneratePrivateKey_returns_only_at_a_decisive_draw_witness :
  exists calls,
    [call_keypair_create (be_encode 32 1); call_keypair_create (zeros 32)]
    = calls ++ []
    /\ Forall is_create_call calls
    /\ 2%nat = (0 + length calls + 0)%nat.
Proof.
  apply (GeneratePrivateKey_returns_only_at_a_decisive_draw Libsecp.engine 2
           zero_then_one
           {| rand_source := rand_source zero_then_one;
              rand_reads := 2;
              engine_calls := [call_keypair_create (be_encode 32 1);
                               call_keypair_create (zeros 32)] |}
           (Some key_one, None)).
  vm_compute. reflexivity.
Defined.

(** ** Deserialization against the range of the secrets *)

Lemma Libsecp_rejects_invalid_secrets : rejects_invalid_secrets Libsecp.engine.
Proof.
  intros seckey Hlen Hout. cbn [secp256k1_keypair_create Libsecp.engine].
  unfold Libsecp.keypair_create. rewrite firstn_all2 by lia.
  destruct ((0 <? be_decode seckey) && (be_decode seckey <? groupOrder)) eqn:Hin;
    [|cbn; discriminate].
  apply andb_true_iff in Hin. destruct Hin as [Hpos Hlt].
  apply Z.ltb_lt in Hpos. apply Z.ltb_lt in Hlt. lia.
Qed.

(** X14: on an engine that accepts the secrets in the range and refuses the
    others, [DeserializePrivateKey] of 32 bytes returns a key pair exactly
    when the bytes encode a secret with [0 < secret < groupOrder], and returns
    the error "invalid SchnorrKeyPair (zero or bigger than the group order)"
    with a nil key pair exactly when they do not; in particular it refuses the
    all-zero secret and the group order itself. *)
Theorem DeserializePrivateKey_accepts_exactly_the_range
  (C : CurveEngine) (data : bytes) (w : World) :
  creates_from_valid_secrets C ->
  rejects_invalid_secrets C ->
  length data = 32%nat ->
  ((exists key, returned (DeserializePrivateKey C data w) = Some (Some key, None))
   <-> 0 < be_decode data < groupOrder)
  /\ (returned (DeserializePrivateKey C data w)
      = Some (None, Some (errors_New
                "invalid SchnorrKeyPair (zero or bigger than the group order)"))
      <-> ~ (0 < be_decode data < groupOrder)).
Proof.
  intros Hacc Hrej Hlen. rewrite DeserializePrivateKey_eq.
  assert (Hdec : {0 < be_decode data < groupOrder} + {~ (0 < be_decode data < groupOrder)}).
  { destruct (Z_lt_dec 0 (be_decode data)); [|right; lia].
    destruct (Z_lt_dec (be_decode data) groupOrder); [left|right]; lia. }
  destruct Hdec as [Hin|Hout].
  - destruct (Hacc data Hlen Hin) as [pub [_ Hcreate]]. rewrite Hcreate.
    cbn [fst snd Z.eqb Pos.eqb returned]. split; split; intros H.
    + exact Hin.
    + eauto.
    + discriminate.
    + contradiction.
  - pose proof (Hrej data Hlen Hout) as Hno. apply Z.eqb_neq in Hno. rewrite Hno.
    cbn [returned]. split; split; intros H.
    + destruct H as [key H]. discriminate.
    + contradiction.
    + exact Hout.
    + reflexivity.
Qed.

Lemma DeserializePrivateKey_accepts_exactly_the_range_witness :
  returned (DeserializePrivateKey Libsecp.engine tweak_overflow
              (world_of (full_read (zeros 32))))
  = Some (None, Some (errors_New
            "invalid SchnorrKeyPair (zero or bigger than the group order)"))
  <-> ~ (0 < be_decode tweak_overflow < groupOrder).
Proof.
  apply (DeserializePrivateKey_accepts_exactly_the_range Libsecp.engine tweak_overflow
           (world_of (full_read (zeros 32)))
           Libsecp_creates_from_valid_secrets Libsecp_rejects_invalid_secrets).
  reflexivity.
Defined.

(** X15: the round trip in the other direction.  On an engine that accepts
    the valid secrets and keeps the secret at the head of the record, a key
    pair that [DeserializePrivateKey] returned for a valid secret is returned
    again, the same record, by [DeserializePrivateKeyFromSlice] of its
    [SerializePrivateKey]. *)
Theorem deserialize_serialize_round_trip
  (C : CurveEngine) (data : bytes) (w w2 : World) :
  creates_from_valid_secrets C ->
  length data = 32%nat ->
  0 < be_decode data < groupOrder ->
  exists key : SchnorrKeyPair,
    returned (DeserializePrivateKey C data w) = Some (Some key, None)
    /\ SerializePrivateKey key = data
    /\ returned (DeserializePrivateKeyFromSlice C (SerializePrivateKey key) w2)
       = Some (Some key, None).
Proof.
  intros Hacc Hlen Hin. destruct (Hacc data Hlen Hin) as [pub [Hpub Hcreate]].
  assert (Hser : SerializePrivateKey
                   {| keypair_data := copy (zeros KeyPairSize) (data ++ pub) |} = data).
  { rewrite SerializePrivateKey_secret; cbn [keypair_data].
    - rewrite copy_full by (rewrite length_app, Hlen, Hpub, length_zeros; reflexivity).
      rewrite <- slice_firstn. now apply slice_app_l.
    - rewrite length_copy, length_zeros. unfold KeyPairSize. lia. }
  exists {| keypair_data := copy (zeros KeyPairSize) (data ++ pub) |}.
  split; [|split].
  - rewrite DeserializePrivateKey_eq, Hcreate. reflexivity.
  - exact Hser.
  - rewrite Hser, DeserializePrivateKeyFromSlice_32, DeserializePrivateKey_eq, Hcreate
      by assumption.
    reflexivity.
Qed.

Lemma deserialize_serialize_round_trip_witness :
  exists key : SchnorrKeyPair,
    returned (DeserializePrivateKey Libsecp.engine tweak_one
                (world_of (full_read (zeros 32))))
    = Some (Some key, None)
    /\ SerializePrivateKey key = tweak_one
    /\ returned (DeserializePrivateKeyFromSlice Libsecp.engine (SerializePrivateKey key)
                   (world_of failed_read))
       = Some (Some key, None).
Proof.
  apply (deserialize_serialize_round_trip Libsecp.engine tweak_one
           (world_of (full_read (zeros 32))) (world_of failed_read)
           Libsecp_creates_from_valid_secrets).
  - reflexivity.
  - vm_compute. split; reflexivity.
Defined.

(** ** Tweak addition, step by step *)

(** X16: one successful [Add], read back with [SerializePrivateKey].  On an
    engine whose tweak addition adds the tweak to the secret modulo the group
    order, the 32 bytes serialized afterwards encode [(s + t) mod groupOrder]
    when the engine reports an even parity for the key pair, and
    [(groupOrder - s + t) mod groupOrder] when it reports an odd one, where
    [s] is what [SerializePrivateKey] gave before and [t] the tweak; the
    record keeps its 96 bytes. *)
Theorem Add_then_SerializePrivateKey
  (C : CurveEngine) (key key' : SchnorrKeyPair) (tweak : bytes) (w : World) :
  adds_tweak_to_secret C ->
  length (keypair_data key) = KeyPairSize ->
  length tweak = 32%nat ->
  returned (Add C key tweak w) = Some (key', None) ->
  length (keypair_data key') = KeyPairSize
  /\ be_decode (SerializePrivateKey key')
     = ((if odd_parity C key
         then groupOrder - be_decode (SerializePrivateKey key)
         else be_decode (SerializePrivateKey key))
        + be_decode tweak) mod groupOrder
  /\ 0 <= be_decode (SerializePrivateKey key') < groupOrder.
Proof.
  intros Hengine Hlen Htweak Hrun.
  destruct (Add_success C _ _ _ _ Hrun) as [_ [out [Hout Hkey']]].
  destruct (Hengine _ _ _ Hlen Htweak Hout) as [Hlen' Hsecret].
  rewrite copy_full in Hkey' by congruence.
  assert (Hl : length (keypair_data key') = KeyPairSize) by congruence.
  destruct (SerializePrivateKey_secret_of key Hlen) as [_ Hs].
  destruct (SerializePrivateKey_secret_of key' Hl) as [_ Hs'].
  assert (Heq : be_decode (SerializePrivateKey key')
     = ((if odd_parity C key
         then groupOrder - be_decode (SerializePrivateKey key)
         else be_decode (SerializePrivateKey key))
        + be_decode tweak) mod groupOrder).
  { rewrite Hs', Hs, Hkey', Hsecret. destruct key as [kp]. reflexivity. }
  split; [exact Hl|]. split; [exact Heq|].
  rewrite Heq. apply Z.mod_pos_bound. pose proof groupOrder_bound. lia.
Qed.

Lemma Add_then_SerializePrivateKey_witness :
  be_decode (SerializePrivateKey
               (key_after (Add Libsecp.engine key_six tweak_one
                             (world_of (full_read (zeros 32))))))
  = ((if odd_parity Libsecp.engine key_six
      then groupOrder - be_decode (SerializePrivateKey key_six)
      else be_decode (SerializePrivateKey key_six))
     + be_decode tweak_one) mod groupOrder.
Proof.
  apply (Add_then_SerializePrivateKey Libsecp.engine key_six
           (key_after (Add Libsecp.engine key_six tweak_one
                         (world_of (full_read (zeros 32)))))
           tweak_one (world_of (full_read (zeros 32)))
           Libsecp_adds_tweak_to_secret).
  - reflexivity.
  - reflexivity.
  - vm_compute. reflexivity.
Defined.

(** X17: tweaks commute where no sign flips.  On such an engine, if [Add t1]
    then [Add t2] succeeds on one copy of a key pair and [Add t2] then
    [Add t1] on another, and the engine reports an even parity each time [Add]
    is entered, then [SerializePrivateKey] gives the same 32 bytes for both
    copies. *)
Theorem tweaks_commute
  (C : CurveEngine) (key k1 k12 k2 k21 : SchnorrKeyPair) (t1 t2 : bytes)
  (w1 w2 w3 w4 : World) :
  adds_tweak_to_secret C ->
  length (keypair_data key) = KeyPairSize ->
  length t1 = 32%nat ->
  length t2 = 32%nat ->
  returned (Add C key t1 w1) = Some (k1, None) ->
  returned (Add C k1 t2 w2) = Some (k12, None) ->
  returned (Add C key t2 w3) = Some (k2, None) ->
  returned (Add C k2 t1 w4) = Some (k21, None) ->
  odd_parity C key = false ->
  odd_parity C k1 = false ->
  odd_parity C k2 = false ->
  SerializePrivateKey k12 = SerializePrivateKey k21.
Proof.
  intros Hengine Hlen Ht1 Ht2 Hrun1 Hrun12 Hrun2 Hrun21 Heven Heven1 Heven2.
  pose proof groupOrder_bound as Hn.
  destruct (Add_secret C Hengine _ _ _ _ Hlen Ht1 Hrun1 Heven) as [Hlen1 Hs1].
  destruct (Add_secret C Hengine _ _ _ _ Hlen1 Ht2 Hrun12 Heven1) as [Hlen12 Hs12].
  destruct (Add_secret C Hengine _ _ _ _ Hlen Ht2 Hrun2 Heven) as [Hlen2 Hs2].
  destruct (Add_secret C Hengine _ _ _ _ Hlen2 Ht1 Hrun21 Heven2) as [Hlen21 Hs21].
  destruct (SerializePrivateKey_secret_of k12 Hlen12) as [Hl12 Hd12].
  destruct (SerializePrivateKey_secret_of k21 Hlen21) as [Hl21 Hd21].
  apply be_decode_inj; [congruence|].
  rewrite Hd12, Hd21, Hs12, Hs1, Hs21, Hs2.
  rewrite !Zplus_mod_idemp_l. f_equal. lia.
Qed.

Lemma tweaks_commute_witness :
  SerializePrivateKey key_four
  = SerializePrivateKey
      (key_after (Add Libsecp.engine key_three tweak_one
                    (world_of (full_read (zeros 32))))).
Proof.
  apply (tweaks_commute Libsecp.engine key_one key_two key_four key_three
           (key_after (Add Libsecp.engine key_three tweak_one
                         (world_of (full_read (zeros 32)))))
           tweak_one (be_encode 32 2)
           (world_of (full_read (zeros 32))) (world_of (full_read (zeros 32)))
           (world_of (full_read (zeros 32))) (world_of (full_read (zeros 32)))
           Libsecp_adds_tweak_to_secret).
  - reflexivity.
  - reflexivity.
  - reflexivity.
  - vm_compute. reflexivity.
  - vm_compute. reflexivity.
  - vm_compute. reflexivity.
  - vm_compute. reflexivity.
  - vm_compute. reflexivity.
  - vm_compute. reflexivity.
  - vm_compute. reflexivity.
Defined.

(** ** Short reads *)

(** C2: on a randomness source that answers as [crypto/rand.Read] does
    ([n == len(b)] if and only if [err == nil]), a read that writes fewer
    than the 32 bytes asked for makes [GeneratePrivateKey] return a nil key
    pair and [SchnorrSign] a nil signature, each with the non-nil error of
    the source; for [GeneratePrivateKey] this holds at whichever draw is cut
    short, after any number of draws the engine refused.  Neither operation
    ever returns a nil result together with a nil error. *)
Theorem short_read_is_a_randomness_error
  (C : CurveEngine) (key : SchnorrKeyPair) (hash : bytes) (w : World) :
  (forall i, ReadFull (rand_source w i) 32) ->
  (forall k fuel,
      (forall i, (i < k)%nat -> rejected_round C (rand_source w (rand_reads w + i))) ->
      (length (rr_data (rand_source w (rand_reads w + k))) < 32)%nat ->
      exists e w',
        rr_err (rand_source w (rand_reads w + k)) = Some e
        /\ GeneratePrivateKey C (S k + fuel) w = Returns (None, Some e) w')
  /\ ((length (rr_data (rand_source w (rand_reads w))) < 32)%nat ->
      exists e,
        rr_err (rand_source w (rand_reads w)) = Some e
        /\ SchnorrSign C key hash w = Returns (None, Some e) (after_read w))
  /\ (forall fuel v w',
        GeneratePrivateKey C fuel w = Returns v w' -> v <> (None, None))
  /\ returned (SchnorrSign C key hash w) <> Some (None, None).
Proof.
  intros Hsource.
  assert (Herror : forall i,
             (length (rr_data (rand_source w i)) < 32)%nat ->
             exists e, rr_err (rand_source w i) = Some e).
  { intros i Hshort. destruct (rr_err (rand_source w i)) as [e|] eqn:Herr.
    - now exists e.
    - apply (Hsource i) in Herr. lia. }
  assert (Hnil : forall i,
             read_failed (rand_source w i) 32 = true ->
             rr_err (rand_source w i) <> None).
  { intros i Hfail Herr.
    rewrite (read_failed_full _ _ Herr (proj1 (Hsource i) Herr)) in Hfail.
    discriminate Hfail. }
  split; [|split; [|split]].
  - intros k fuel Hrej Hshort.
    pose proof (read_failed_short _ _ Hshort) as Hfail.
    destruct (Herror _ Hshort) as [e He]. unfold GeneratePrivateKey.
    destruct (GeneratePrivateKey_loop_decides C k fuel
                (zeros (Z.to_nat SerializedPrivateKeySize)) w eq_refl Hrej
                (or_introl Hfail)) as [w' [Hrun _]].
    rewrite Hfail, He in Hrun. now exists e, w'.
  - intros Hshort. destruct (Herror _ Hshort) as [e He]. exists e.
    split; [exact He|].
    rewrite SchnorrSign_read_failed by (now apply read_failed_short).
    now rewrite He.
  - intros fuel v w' Hrun. unfold GeneratePrivateKey in Hrun.
    apply GeneratePrivateKey_loop_returns in Hrun; [|reflexivity].
    destruct Hrun as [_ [_ [Hlast _]]]. cbv zeta in Hlast.
    destruct Hlast as [[Hfail Hv]|[_ Hv]]; subst v; [|discriminate].
    intros Heq. injection Heq as Herr. exact (Hnil _ Hfail Herr).
  - destruct (read_failed (rand_source w (rand_reads w)) 32) eqn:Hread.
    + rewrite SchnorrSign_read_failed by assumption. cbn [returned].
      intros Heq. injection Heq as Herr. exact (Hnil _ Hread Herr).
    + rewrite SchnorrSign_read_full, schnorrSignInternal_eq by assumption.
      destruct (isZeroed key); [discriminate|].
      cbn [returned]. destruct (fst _ =? 1); discriminate.
Qed.

Lemma short_read_is_a_randomness_error_witness :
  (exists e w',
      rr_err cut_short = Some e
      /\ GeneratePrivateKey Libsecp.engine 2 zeros_then_cut_short
         = Returns (None, Some e) w')
  /\ (exists e,
        rr_err cut_short = Some e
        /\ SchnorrSign Libsecp.engine key_one (zeros 32) (world_of cut_short)
           = Returns (None, Some e) (after_read (world_of cut_short))).
Proof.
  split.
  - destruct (short_read_is_a_randomness_error Libsecp.engine key_one (zeros 32)
                zeros_then_cut_short) as [Hgenerate _].
    + intros [|i]; split; intros H; cbn in *;
        first [discriminate H | reflexivity | lia].
    + apply (Hgenerate 1%nat 0%nat).
      * intros i Hi. assert (i = 0%nat) as -> by lia.
        split; vm_compute; [reflexivity|discriminate].
      * cbn. lia.
  - destruct (short_read_is_a_randomness_error Libsecp.engine key_one (zeros 32)
                (world_of cut_short)) as [_ [Hsign _]].
    + intros i. split; intros H; cbn in *; [discriminate H|lia].
    + apply Hsign. cbn. lia.
Defined.
